(** * Home Assistant Stream Deck integration: the synchronisation core

    A shallow embedding of [home-assistant-streamdeck-yaml.py]: the state
    store kept current from the hub's event stream, the rule that turns a
    button and the store into rendering parameters, the press handler and
    the outbound commands, the correlation-id counter, the reconnecting
    connection manager [setup_ws], the search for the deck, and the url,
    download cache and colour of the icons. *)

From Stdlib Require Import ZArith QArith Ascii String HexString.
From stdpp Require Import gmap strings list.

Local Open Scope Z_scope.
Local Open Scope string_scope.
Local Open Scope list_scope.
Local Set Warnings "-register-all".

(** ** Values decoded by [json.loads] *)

(** A decoded frame.  An object keeps its fields in the order of the text;
    [json.loads] keeps one value per key, so the keys of a [JObj] are
    distinct.  A number written with a fraction or an exponent is decoded
    to a float: [JFloat] carries its literal and the value of the float
    (the literals [NaN] and [Infinity], which JSON does not have, are left
    out). *)
Inductive json : Type :=
| JNull
| JBool (b : bool)
| JNum (n : Z)
| JFloat (literal : string) (value : Q)
| JStr (s : string)
| JArr (items : list json)
| JObj (fields : list (string * json)).

(** ** Exceptions and outcomes *)

Inductive exn : Type :=
| KeyError (key : string)
| TypeError
| IndexError
| ValueError
| ConnectionResetError
| RuntimeError (msg : string)
| OtherError (name : string).

(** What a call comes to: a value, an exception, or [Pending] when it
    awaits a frame that never arrives ([await websocket.recv()] on a
    connection with nothing more to deliver). *)
Inductive outcome (A : Type) : Type :=
| Ok (a : A)
| Raise (e : exn)
| Pending.
Arguments Ok {A} a.
Arguments Raise {A} e.
Arguments Pending {A}.

#[global] Instance outcome_ret : MRet outcome := fun A a => Ok a.
#[global] Instance outcome_bind : MBind outcome := fun A B k r =>
  match r with
  | Ok a => k a
  | Raise e => Raise e
  | Pending => Pending
  end.

#[global] Instance outcome_fmap : FMap outcome := fun A B f r =>
  match r with
  | Ok a => Ok (f a)
  | Raise e => Raise e
  | Pending => Pending
  end.

(** [xs[i]] on a list, for an index that is not negative. *)
Definition index {A} (xs : list A) (i : nat) : outcome A :=
  match xs !! i with
  | Some x => Ok x
  | None => Raise IndexError
  end.

(** [d[k]] on a decoded value: a [KeyError] when an object lacks the key, a
    [TypeError] on anything that is not an object (None, a number, a string
    or a list subscripted by a string). *)
Fixpoint dict_get (k : string) (fields : list (string * json)) : option json :=
  match fields with
  | [] => None
  | (k', v) :: rest => if String.eqb k' k then Some v else dict_get k rest
  end.

Definition getitem (d : json) (k : string) : outcome json :=
  match d with
  | JObj fields =>
      match dict_get k fields with
      | Some v => Ok v
      | None => Raise (KeyError k)
      end
  | _ => Raise TypeError
  end.

(** [v == "literal"]: true only of the string itself. *)
Definition eq_str (v : json) (s : string) : bool :=
  match v with
  | JStr t => String.eqb t s
  | _ => false
  end.

(** ** Dict keys *)

(** What a decoded value is as the key of a dict.  A string is a key of
    its own and so is None; numbers are one key when they are equal, an
    [int], a [float] or a [bool] alike ([True == 1 == 1.0], with equal
    hashes), and are kept here as the fraction in lowest terms. *)
Inductive hashable : Type :=
| HStr (s : string)
| HNone
| HNum (num : Z) (den : positive).

#[global] Instance hashable_eq_dec : EqDecision hashable.
Proof. solve_decision. Defined.

#[global] Instance hashable_countable : Countable hashable :=
  inj_countable'
    (fun k => match k with
              | HStr s => inl s
              | HNone => inr (inl tt)
              | HNum num den => inr (inr (num, den))
              end)
    (fun x => match x with
              | inl s => HStr s
              | inr (inl _) => HNone
              | inr (inr (num, den)) => HNum num den
              end)
    (fun k => match k with
              | HStr _ | HNone | HNum _ _ => eq_refl
              end).

(** [hash(v)], as [d[v] = ...] and the dict comprehension call it: a list
    or a dict is unhashable, a [TypeError]. *)
Definition hash_key (v : json) : outcome hashable :=
  match v with
  | JStr s => Ok (HStr s)
  | JNull => Ok HNone
  | JBool b => Ok (HNum (if b then 1 else 0) 1)
  | JNum n => Ok (HNum n 1)
  | JFloat _ value => Ok (HNum (Qnum (Qred value)) (Qden (Qred value)))
  | JArr _ | JObj _ => Raise TypeError
  end.

(** ** [str.split] *)

(** [s.split(".")]: the pieces between the dots, one more than there are
    dots. *)
Fixpoint split_dot (s : string) : list string :=
  match s with
  | EmptyString => [EmptyString]
  | String c rest =>
      if Ascii.eqb c "."%char then EmptyString :: split_dot rest
      else match split_dot rest with
           | piece :: pieces => String c piece :: pieces
           | [] => [String c EmptyString]
           end
  end.

(** [s.split(".", 1)]: cut at the first dot only. *)
Fixpoint split_dot_once (s : string) : list string :=
  match s with
  | EmptyString => [EmptyString]
  | String c rest =>
      if Ascii.eqb c "."%char then [EmptyString; rest]
      else match split_dot_once rest with
           | piece :: pieces => String c piece :: pieces
           | [] => [String c EmptyString]
           end
  end.

Fixpoint count_dots (s : string) : nat :=
  match s with
  | EmptyString => 0%nat
  | String c rest =>
      if Ascii.eqb c "."%char then S (count_dots rest) else count_dots rest
  end.

(** ** Configuration *)

(** [class Button].  [service_data] is a dict with string keys, kept as
    the fields of the JSON object it is sent as; an unset optional field is
    [None], and an unset [service_data] the empty dict. *)
Record Button : Type := mkButton {
  entity_id : option string;
  service : option string;
  service_data : list (string * json);
  text : string;
  text_color : option string;
  text_size : Z;
  icon : option string;
  icon_mdi : option string
}.

(** [Button.domain]: computed from [service], cut at the first dot, under a
    docstring that reads "Return the domain of the entity". *)
Definition domain (button : Button) : option string :=
  match service button with
  | None => None
  | Some s => head (split_dot_once s)
  end.

(** The domain of the entity a button is bound to, which the docstring of
    [Button.domain] says that property returns and the specification's
    examples go by (["light"] in ["light.kitchen"]): the part of the entity
    identifier before its first dot.  The source computes no such value;
    it is here to be compared with [domain]. *)
Definition entity_domain (button : Button) : option string :=
  entity_id button ≫= fun eid => head (split_dot_once eid).

(** [button.entity_id] as a dict key: a string, or None when unset. *)
Definition entity_key (button : Button) : hashable :=
  match entity_id button with
  | Some eid => HStr eid
  | None => HNone
  end.

(** [button.entity_id == v] for a decoded value [v]: a string equals the
    same string, None equals None, and nothing else is equal. *)
Definition entity_id_eq (button : Button) (v : json) : bool :=
  match entity_id button, v with
  | Some eid, JStr s => String.eqb eid s
  | None, JNull => true
  | _, _ => false
  end.

Definition DEFAULT_MDI_ICONS : gmap string string :=
  <["light" := "lightbulb"]> (<["switch" := "power-socket-eu"]> ∅).

(** The keyword arguments [update_key_image] hands to [render_key_image]. *)
Record render_args : Type := mkArgs {
  label_text : string;
  arg_text_color : string;
  arg_icon_mdi : option string;
  icon_filename : option string;
  font_size : Z
}.

(** What the connection delivers next: a frame, as [json.loads] decodes it
    (text that does not decode is not modelled), or a reset of the
    connection, which [recv] raises as [ConnectionResetError]. *)
Inductive inbound : Type :=
| Frame (data : json)
| Reset.

(** ** The connection manager

    [setup_ws] is an async generator wrapped by [asynccontextmanager]: the
    generator runs to its [yield], the body of the [async with] runs, and
    on the way out the wrapper resumes the generator, with the body's
    exception thrown in at the [yield] when there is one. *)

(** One [websockets.connect(uri)] attempt as the network decides it: the
    connect is refused with an exception, or a transport is established on
    which sending the auth message succeeds or not and whose [recv] calls
    deliver [frames], the first of them the reply to the auth message. *)
Inductive attempt : Type :=
| Refused (e : exn)
| Established (send_auth : outcome unit) (frames : list inbound).

(** What the channel does, in order. *)
Inductive ws_event : Type :=
| Connect
| SendAuth
| RecvAuth
| Close
| Sleep (seconds : Z)
| Yield.

(** Where a run of the generator stops: at its [yield], handing over the
    connection (the frames it will still deliver) with the attempts the
    network has left; with an exception; or waiting for ever. *)
Inductive gen_outcome : Type :=
| GenYield (frames : list inbound) (rest : list attempt)
| GenRaise (e : exn)
| GenPending.

(** [except ConnectionResetError: ...; await asyncio.sleep(5)], after which
    the [while True] goes round again; any other exception leaves the
    generator. *)
Definition except_ConnectionResetError (e : exn) (log : list ws_event)
    (again : list ws_event -> list ws_event * gen_outcome)
  : list ws_event * gen_outcome :=
  match e with
  | ConnectionResetError => again (log ++ [Sleep 5])
  | _ => (log, GenRaise e)
  end.

(** [setup_ws] from the top of its [while True] to the next [yield].
    Leaving [async with websockets.connect(uri)] closes the transport. *)
Fixpoint setup_ws (net : list attempt) (log : list ws_event)
  : list ws_event * gen_outcome :=
  match net with
  | [] => (log ++ [Connect], GenPending)
  | Refused e :: rest =>
      except_ConnectionResetError e (log ++ [Connect]) (setup_ws rest)
  | Established send_auth frames :: rest =>
      match send_auth with
      | Raise e =>
          except_ConnectionResetError e (log ++ [Connect; SendAuth; Close])
            (setup_ws rest)
      | Pending => (log ++ [Connect; SendAuth], GenPending)
      | Ok _ =>
          match frames with
          | [] => (log ++ [Connect; SendAuth; RecvAuth], GenPending)
          | Reset :: _ =>
              except_ConnectionResetError ConnectionResetError
                (log ++ [Connect; SendAuth; RecvAuth; Close]) (setup_ws rest)
          | Frame auth_response :: frames' =>
              (log ++ [Connect; SendAuth; RecvAuth; Yield],
               GenYield frames' rest)
          end
      end
  end.

(** The generator resumed at its [yield] with the exception [e] thrown in
    ([gen.athrow(e)]): [e] leaves the [async with], closing the transport,
    and reaches the [except] clause. *)
Definition setup_ws_athrow (e : exn) (rest : list attempt)
    (log : list ws_event) : list ws_event * gen_outcome :=
  except_ConnectionResetError e (log ++ [Close]) (setup_ws rest).

(** The generator resumed at its [yield] with nothing thrown in
    ([anext(gen)]): the [async with] ends, and the loop goes round. *)
Definition setup_ws_anext (rest : list attempt) (log : list ws_event)
  : list ws_event * gen_outcome :=
  setup_ws rest (log ++ [Close]).

(** [async with setup_ws(host, token) as websocket: body], as
    [contextlib]'s [__aenter__] and [__aexit__] run it.  [__aexit__] lets
    an exception of the generator through, and answers a generator that
    yields a second time with a [RuntimeError]; this generator never
    finishes, so no run ends without one or the other. *)
Definition async_with_setup_ws {W A : Type}
    (body : list inbound -> W -> W * outcome A)
    (net : list attempt) (w : W) : list ws_event * W * outcome A :=
  match setup_ws net [] with
  | (log, GenYield frames rest) =>
      match body frames w with
      | (w', Ok _) =>
          match setup_ws_anext rest log with
          | (log', GenYield _ _) =>
              (log', w', Raise (RuntimeError "generator didn't stop"))
          | (log', GenRaise e') => (log', w', Raise e')
          | (log', GenPending) => (log', w', Pending)
          end
      | (w', Raise e) =>
          match setup_ws_athrow e rest log with
          | (log', GenYield _ _) =>
              (log', w',
               Raise (RuntimeError "generator didn't stop after athrow()"))
          | (log', GenRaise e') => (log', w', Raise e')
          | (log', GenPending) => (log', w', Pending)
          end
      | (w', Pending) => (log, w', Pending)
      end
  | (log, GenRaise e) => (log, w, Raise e)
  | (log, GenPending) => (log, w, Pending)
  end.

(** [".".join(pieces)] *)
Fixpoint join_dot (pieces : list string) : string :=
  match pieces with
  | [] => ""
  | [piece] => piece
  | piece :: rest => piece +:+ "." +:+ join_dot rest
  end.

(** An attempt that ends in a connection reset: at the connect, while the
    auth message is sent, or while its reply is awaited. *)
Definition is_reset (a : attempt) : Prop :=
  match a with
  | Refused e => e = ConnectionResetError
  | Established (Raise e) _ => e = ConnectionResetError
  | Established (Ok _) (Reset :: _) => True
  | _ => False
  end.

(** An attempt that ends in the exception [e], which is not a reset. *)
Definition fails_with (a : attempt) (e : exn) : Prop :=
  e ≠ ConnectionResetError
  ∧ match a with
    | Refused e' => e' = e
    | Established (Raise e') _ => e' = e
    | _ => False
    end.

(** The seconds slept, in order. *)
Definition sleeps (log : list ws_event) : list Z :=
  omap (fun ev => match ev with Sleep n => Some n | _ => None end) log.

(** The number of connects, and of yields. *)
Definition connects (log : list ws_event) : nat :=
  length (omap (fun ev => match ev with Connect => Some tt | _ => None end) log).

Definition yields (log : list ws_event) : nat :=
  length (omap (fun ev => match ev with Yield => Some tt | _ => None end) log).

(** ** Finding the deck *)

(** A device as [DeviceManager().enumerate()] lists it: whether it has a
    screen, and what [open()] and [reset()] come to. *)
Record device : Type := mkDevice {
  is_visual : bool;
  open_ : outcome unit;
  reset_ : outcome unit
}.

(** Calls made on the listed devices, by position in the list. *)
Inductive device_call : Type :=
| OpenCall (position : nat)
| ResetCall (position : nat).

(** The [for deck in streamdecks] of [get_deck], from position [i] on: a
    device without a screen is skipped; the first with one is opened and
    reset, and the loop is left. *)
Fixpoint get_deck_from (i : nat) (streamdecks : list device)
  : list device_call * outcome device :=
  match streamdecks with
  | [] => ([], Raise (RuntimeError "No Stream Deck found"))
  | deck :: rest =>
      if is_visual deck then
        match open_ deck with
        | Ok _ =>
            match reset_ deck with
            | Ok _ => ([OpenCall i; ResetCall i], Ok deck)
            | Raise e => ([OpenCall i; ResetCall i], Raise e)
            | Pending => ([OpenCall i; ResetCall i], Pending)
            end
        | Raise e => ([OpenCall i], Raise e)
        | Pending => ([OpenCall i], Pending)
        end
      else get_deck_from (S i) rest
  end.

(** [get_deck], given what [DeviceManager().enumerate()] returned.  The
    [print] before the [return] only reads the deck and is left out. *)
Definition get_deck (streamdecks : list device)
  : list device_call * outcome device :=
  get_deck_from 0 streamdecks.

(** ** Icon downloads *)

(** [_mdi_url] *)
Definition _mdi_url (mdi : string) : string :=
  "https://raw.githubusercontent.com/Templarian/MaterialDesign/master/svg/"
  +:+ mdi +:+ ".svg".

(** [_download] is wrapped in [functools.lru_cache(maxsize=128)].  The
    cache holds the results of the calls that returned, most recently
    used first; [fetches] counts the calls that reached the network.
    [network n url] is what [requests.get(url, timeout=5).content] comes
    to when it is the [n]-th call to reach the network. *)
Record download_cache : Type := mkCache {
  entries : list (string * string);
  fetches : nat
}.

Definition maxsize : nat := 128.

Fixpoint cache_lookup (url : string) (entries : list (string * string))
  : option string :=
  match entries with
  | [] => None
  | (url', content) :: rest =>
      if String.eqb url' url then Some content else cache_lookup url rest
  end.

Fixpoint cache_remove (url : string) (entries : list (string * string))
  : list (string * string) :=
  match entries with
  | [] => []
  | (url', content) :: rest =>
      if String.eqb url' url then rest
      else (url', content) :: cache_remove url rest
  end.

(** A hit returns the cached content and makes the entry the most recent;
    a miss calls the function, and when that returns stores the result as
    the most recent entry, dropping the least recently used one if there
    are more than [maxsize]; an exception is passed on and stores
    nothing. *)
Definition _download (network : nat -> string -> outcome string)
    (url : string) (cache : download_cache)
  : download_cache * outcome string :=
  match cache_lookup url (entries cache) with
  | Some content =>
      ({| entries := (url, content) :: cache_remove url (entries cache);
          fetches := fetches cache |}, Ok content)
  | None =>
      match network (fetches cache) url with
      | Ok content =>
          ({| entries := take maxsize ((url, content) :: entries cache);
              fetches := S (fetches cache) |}, Ok content)
      | Raise e =>
          ({| entries := entries cache; fetches := S (fetches cache) |},
           Raise e)
      | Pending =>
          ({| entries := entries cache; fetches := S (fetches cache) |},
           Pending)
      end
  end.

(** One download after the other, an exception of one caught by its
    caller; a download that never returns ends the run. *)
Fixpoint download_all (network : nat -> string -> outcome string)
    (urls : list string) (cache : download_cache) : download_cache :=
  match urls with
  | [] => cache
  | url :: rest =>
      match _download network url cache with
      | (cache', Pending) => cache'
      | (cache', _) => download_all network rest cache'
      end
  end.

(** The cache as [lru_cache] keeps it: one entry per url, no more than
    [maxsize] of them. *)
Definition cache_ok (cache : download_cache) : Prop :=
  NoDup ((entries cache).*1) ∧ (length (entries cache) <= maxsize)%nat.

(** [url] is in the cache with [content], behind entries for urls of
    [others] only, each of them there once. *)
Definition cached_behind (url content : string) (others : list string)
    (entries : list (string * string)) : Prop :=
  ∃ front back,
    entries = front ++ (url, content) :: back
    ∧ (url ∉ front.*1) ∧ NoDup (front.*1) ∧ front.*1 ⊆ others.

(** ** Colours *)

(** [format(n, "02x")]: lower-case hexadecimal digits, filled with zeros
    to two characters, of which a minus sign is one. *)
Definition format_02x (n : Z) : string :=
  match n with
  | Z0 => "00"
  | Zpos p =>
      let digits := HexString.Raw.of_pos p "" in
      if (String.length digits <? 2)%nat then "0" +:+ digits else digits
  | Zneg p => "-" +:+ HexString.Raw.of_pos p ""
  end.

(** [_named_to_hex].  [getrgb] is [ImageColor.getrgb], which returns a
    tuple of three or four integers or raises [ValueError]; [str.format]
    takes the first three and raises [IndexError] when there are fewer. *)
Definition _named_to_hex (getrgb : string -> outcome (list Z))
    (color : string) : outcome string :=
  rgb ← getrgb color;
  match rgb with
  | r :: g :: b :: _ =>
      let color := "#" +:+ format_02x r +:+ format_02x g +:+ format_02x b in
      if String.prefix "#" color then Ok color else Raise ValueError
  | _ => Raise IndexError
  end.

(** ** Where a key's icon comes from *)

(** The first statement of [render_key_image]: the icon is the asset file
    [icon_filename] when there is one; else the Material Design icon
    [icon_mdi], downloaded from its url, tinted with the text colour as
    [_named_to_hex] gives it (at the opacity 0.3 and with the margin 0 that
    [update_key_image] leaves at its default), and saved under the icon's
    name; else a black square. *)
Inductive icon_source : Type :=
| AssetFile (icon_filename : string)
| MdiIcon (url : string) (color : string) (png : string)
| BlackSquare.

Definition render_key_image_icon (getrgb : string -> outcome (list Z))
    (args : render_args) : outcome icon_source :=
  match icon_filename args with
  | Some name => Ok (AssetFile name)
  | None =>
      match arg_icon_mdi args with
      | Some mdi =>
          color ← _named_to_hex getrgb (arg_text_color args);
          Ok (MdiIcon (_mdi_url mdi) color (mdi +:+ ".png"))
      | None => Ok BlackSquare
      end
  end.

(** ** Stand-ins for the collaborators, used where a concrete run is shown *)

(** A template with nothing to substitute renders as itself. *)
Definition literal_jinja (template : string) (data : list (string * json))
  : outcome string := Ok template.

(** A rendered image stood for by the arguments it was rendered from. *)
Definition args_as_image (args : render_args) : outcome render_args := Ok args.

(** ** Sample frames and configuration, for the concrete runs *)

Module Sample.

Definition auth_ok : json := JObj [("type", JStr "auth_ok")].

Definition record (eid value : string) : json :=
  JObj [("entity_id", JStr eid); ("state", JStr value)].

(** The hub's reply to a get_states request. *)
Definition snapshot (id : Z) (records : list json) : json :=
  JObj [("id", JNum id); ("type", JStr "result"); ("success", JBool true);
        ("result", JArr records)].

(** A state_changed event of the standing subscription. *)
Definition event (eid value : string) : json :=
  JObj [("id", JNum 3); ("type", JStr "event");
        ("event", JObj [("event_type", JStr "state_changed");
                        ("data", JObj [("entity_id", JStr eid);
                                       ("old_state", JNull);
                                       ("new_state", record eid value)]);
                        ("origin", JStr "LOCAL")])].

(** An event of another kind on the same stream. *)
Definition service_registered : json :=
  JObj [("id", JNum 3); ("type", JStr "event");
        ("event", JObj [("event_type", JStr "service_registered");
                        ("data", JObj [("domain", JStr "light")])])].

Definition lamp : Button :=
  {| entity_id := Some "light.kitchen"; service := Some "light.toggle";
     service_data := []; text := "Kitchen"; text_color := None;
     text_size := 12; icon := None; icon_mdi := None |}.

Definition fan : Button :=
  {| entity_id := Some "switch.fan"; service := Some "switch.toggle";
     service_data := []; text := "Fan"; text_color := Some "blue";
     text_size := 12; icon := None; icon_mdi := None |}.

Definition scene : Button :=
  {| entity_id := None; service := Some "scene.turn_on";
     service_data := [("entity_id", JStr "scene.movie")]; text := "Movie";
     text_color := None; text_size := 14; icon := None;
     icon_mdi := Some "movie" |}.

Definition all_lights_on : Button :=
  {| entity_id := None; service := Some "light.turn_on";
     service_data := []; text := "All on"; text_color := None;
     text_size := 12; icon := None; icon_mdi := None |}.

Definition broken : Button :=
  {| entity_id := Some "light.kitchen"; service := Some "homeassistant";
     service_data := []; text := "Broken"; text_color := None;
     text_size := 12; icon := None; icon_mdi := None |}.

(** The kitchen light shown by a button that calls nothing. *)
Definition display_only : Button :=
  {| entity_id := Some "light.kitchen"; service := None;
     service_data := []; text := "Kitchen"; text_color := None;
     text_size := 12; icon := None; icon_mdi := None |}.

(** The fan switched through the hub's generic toggle service. *)
Definition generic_toggle : Button :=
  {| entity_id := Some "switch.fan"; service := Some "homeassistant.toggle";
     service_data := []; text := "Fan"; text_color := None;
     text_size := 12; icon := None; icon_mdi := None |}.

Definition buttons : list Button := [lamp; fan; scene; lamp].

End Sample.

(** ** The program state and the collaborators *)

Section Core.

(** The collaborators outside the core: template evaluation, and icon and
    font rendering into a device image.  Either may raise. *)
Variable image : Type.
Variable _render_jinja : string -> list (string * json) -> outcome string.
Variable render_key_image : render_args -> outcome image.

(** Everything the functions below read or change:
    - [_ID_COUNTER], the module's global;
    - [state], the one dict object [main] creates and shares with the
      receive loop and the key callback;
    - the websocket: the frames still to be delivered and the frames sent,
      oldest first;
    - the deck: the [set_key_image] calls made, oldest first. *)
Record world : Type := mkWorld {
  _ID_COUNTER : Z;
  state : gmap hashable json;
  ws_inbox : list inbound;
  ws_sent : list json;
  deck_images : list (nat * image)
}.

Definition M (A : Type) : Type := world -> world * outcome A.

Definition raise {A} (e : exn) : M A := fun w => (w, Raise e).
Definition lift {A} (r : outcome A) : M A := fun w => (w, r).

(** Sequencing: the next statement runs only after a value; an exception
    or a wait that never ends leaves the state as it was at that point. *)
#[local] Instance M_ret : MRet M := fun A a w => (w, Ok a).
#[local] Instance M_bind : MBind M := fun A B k m w =>
  match m w with
  | (w', Ok a) => k a w'
  | (w', Raise e) => (w', Raise e)
  | (w', Pending) => (w', Pending)
  end.

(** [for x in xs: body(x)] *)
Fixpoint for_each {A} (xs : list A) (body : A -> M unit) : M unit :=
  match xs with
  | [] => mret tt
  | x :: rest => body x;; for_each rest body
  end.

(** The state with one component replaced. *)
Definition with_counter (w : world) (c : Z) : world :=
  {| _ID_COUNTER := c; state := state w; ws_inbox := ws_inbox w;
     ws_sent := ws_sent w; deck_images := deck_images w |}.

Definition with_state (w : world) (st : gmap hashable json) : world :=
  {| _ID_COUNTER := _ID_COUNTER w; state := st; ws_inbox := ws_inbox w;
     ws_sent := ws_sent w; deck_images := deck_images w |}.

Definition with_inbox (w : world) (inbox : list inbound) : world :=
  {| _ID_COUNTER := _ID_COUNTER w; state := state w; ws_inbox := inbox;
     ws_sent := ws_sent w; deck_images := deck_images w |}.

Definition with_sent (w : world) (sent : list json) : world :=
  {| _ID_COUNTER := _ID_COUNTER w; state := state w; ws_inbox := ws_inbox w;
     ws_sent := sent; deck_images := deck_images w |}.

Definition with_deck (w : world) (images : list (nat * image)) : world :=
  {| _ID_COUNTER := _ID_COUNTER w; state := state w; ws_inbox := ws_inbox w;
     ws_sent := ws_sent w; deck_images := images |}.

(** [_next_id]: [global _ID_COUNTER; _ID_COUNTER += 1; return _ID_COUNTER].
    A Python [int] does not wrap. *)
Definition _next_id : M Z :=
  fun w =>
    let w' := with_counter w (_ID_COUNTER w + 1) in
    (w', Ok (_ID_COUNTER w')).

(** [await websocket.send(json.dumps(payload))] *)
Definition send (payload : json) : M unit :=
  fun w => (with_sent w (ws_sent w ++ [payload]), Ok tt).

(** [json.loads(await websocket.recv())] *)
Definition recv : M json :=
  fun w =>
    match ws_inbox w with
    | [] => (w, Pending)
    | Frame data :: rest => (with_inbox w rest, Ok data)
    | Reset :: rest => (with_inbox w rest, Raise ConnectionResetError)
    end.

(** The frames the connection has yet to deliver: what the [while True]
    loops below recurse on. *)
Definition pending_frames : M (list inbound) := fun w => (w, Ok (ws_inbox w)).

(** [deck.set_key_image(key, image)] *)
Definition set_key_image (key : nat) (img : image) : M unit :=
  fun w => (with_deck w (deck_images w ++ [(key, img)]), Ok tt).

(** Reading the shared [state] dict and writing it back. *)
Definition get_state : M (gmap hashable json) := fun w => (w, Ok (state w)).

Definition put_state (st : gmap hashable json) : M unit :=
  fun w => (with_state w st, Ok tt).

(** ** Outbound requests *)

(** [subscribe_state_changes] *)
Definition subscribe_state_changes : M unit :=
  i ← _next_id;
  send (JObj [("type", JStr "subscribe_events");
              ("event_type", JStr "state_changed");
              ("id", JNum i)]).

(** [unsubscribe] *)
Definition unsubscribe (id_ : Z) : M unit :=
  i ← _next_id;
  send (JObj [("id", JNum i);
              ("type", JStr "unsubscribe_events");
              ("subscription", JNum id_)]).

(** [call_service]: [domain, service = service.split(".")] unpacks exactly
    two pieces and raises [ValueError] on any other number, before the
    payload is built. *)
Definition call_service (service : string) (data : list (string * json)) : M unit :=
  match split_dot service with
  | [domain; service'] =>
      i ← _next_id;
      send (JObj [("id", JNum i);
                  ("type", JStr "call_service");
                  ("domain", JStr domain);
                  ("service", JStr service');
                  ("service_data", JObj data)])
  | _ => raise ValueError
  end.

(** ** The startup snapshot *)

(** [{state["entity_id"]: state for state in data["result"]}]: a later
    record replaces an earlier one under the same key.  Iterating a list
    visits its items; a dict or a string yields strings, on which the
    subscript raises [TypeError] (nothing is visited when it is empty);
    None and numbers are not iterable.  Any hashable ["entity_id"] is a
    key. *)
Fixpoint state_dict_of (records : list json) (acc : gmap hashable json)
  : outcome (gmap hashable json) :=
  match records with
  | [] => Ok acc
  | record :: rest =>
      eid ← getitem record "entity_id";
      key ← hash_key eid;
      state_dict_of rest (<[key := record]> acc)
  end.

Definition state_dict (result : json) : outcome (gmap hashable json) :=
  match result with
  | JArr records => state_dict_of records ∅
  | JObj [] => Ok ∅
  | JStr EmptyString => Ok ∅
  | _ => Raise TypeError
  end.

(** The [while True] of [get_states], by recursion on the frames still to
    come: every frame is consumed; the first whose ["type"] is ["result"]
    ends the loop. *)
Fixpoint get_states_loop (inbox : list inbound) (_id : Z) : M (gmap hashable json) :=
  match inbox with
  | [] => fun w => (w, Pending)
  | Reset :: rest => fun w => (with_inbox w rest, Raise ConnectionResetError)
  | Frame data :: rest =>
      fun w =>
        (ty ← lift (getitem data "type");
         if eq_str ty "result" then
           result ← lift (getitem data "result");
           state_dict ← lift (state_dict result);
           unsubscribe _id;;
           mret state_dict
         else get_states_loop rest _id) (with_inbox w rest)
  end.

(** [get_states] *)
Definition get_states : M (gmap hashable json) :=
  _id ← _next_id;
  send (JObj [("type", JStr "get_states"); ("id", JNum _id)]);;
  inbox ← pending_frames;
  get_states_loop inbox _id.

(** ** From a button and the store to rendering parameters *)

(** [update_key_image] up to its call of [render_key_image]: the keyword
    arguments that call receives.  [button.entity_id in state] looks up
    the entity, or None for a button with no entity.  In the first branch
    [state] is rebound to the record found and the templates see it as
    [state]. *)
Definition update_key_image_args (button : Button) (st : gmap hashable json)
    (key_pressed : bool) : outcome render_args :=
  '(text, text_color, icon_mdi) ←
    match st !! entity_key button with
    | Some record =>
        text ← _render_jinja (text button) [("state", record)];
        text_color ←
          match text_color button with
          | Some template => _render_jinja template [("state", record)]
          | None =>
              value ← getitem record "state";
              mret (if eq_str value "on" then "orangered" else "white")
          end;
        let icon_mdi :=
          match icon_mdi button with
          | Some name => Some name
          | None =>
              match icon button with
              | None => domain button ≫= (DEFAULT_MDI_ICONS !!.)
              | Some _ => None
              end
          end in
        mret (text, text_color, icon_mdi)
    | None =>
        let text_color :=
          match text_color button with
          | Some (String c rest) => String c rest
          | _ => "white"
          end in
        mret (text button, text_color, icon_mdi button)
    end;
  mret {| label_text := text;
          arg_text_color := if key_pressed then "green" else text_color;
          arg_icon_mdi := icon_mdi;
          icon_filename := icon button;
          font_size := text_size button |}.

(** [update_key_image] *)
Definition update_key_image (key : nat) (button : Button)
    (st : gmap hashable json) (key_pressed : bool) : M unit :=
  args ← lift (update_key_image_args button st key_pressed);
  img ← lift (render_key_image args);
  set_key_image key img.

(** ** The receive loop *)

(** The body of the two loops that redraw keys, in [_update_state] and in
    [main]: [update_key_image(deck, key=key, button=buttons[key],
    state=state, key_pressed=False)]. *)
Definition redraw (buttons : list Button) (key : nat) : M unit :=
  button ← lift (index buttons key);
  st ← get_state;
  update_key_image key button st false.

(** [_keys]: the positions of the buttons whose [entity_id] equals [eid],
    in order. *)
Definition _keys (eid : json) (buttons : list Button) : list nat :=
  (filter (fun p => entity_id_eq p.2 eid = true) (imap pair buttons)).*1.

(** [_update_state].  [state[eid] = event_data["new_state"]] evaluates its
    right-hand side, then hashes [eid]. *)
Definition _update_state (data : json) (buttons : list Button) : M unit :=
  ty ← lift (getitem data "type");
  if eq_str ty "event" then
    event_data ← lift (getitem data "event");
    event_type ← lift (getitem event_data "event_type");
    if eq_str event_type "state_changed" then
      event_data ← lift (getitem event_data "data");
      eid ← lift (getitem event_data "entity_id");
      new_state ← lift (getitem event_data "new_state");
      key ← lift (hash_key eid);
      st ← get_state;
      put_state (<[key := new_state]> st);;
      for_each (_keys eid buttons) (redraw buttons)
    else mret tt
  else mret tt.

(** The [while True] of [handle_state_changes], by recursion on the frames
    still to come. *)
Fixpoint handle_state_changes_loop (inbox : list inbound)
    (buttons : list Button) : M unit :=
  match inbox with
  | [] => fun w => (w, Pending)
  | Reset :: rest => fun w => (with_inbox w rest, Raise ConnectionResetError)
  | Frame data :: rest =>
      fun w =>
        (_update_state data buttons;;
         handle_state_changes_loop rest buttons) (with_inbox w rest)
  end.

(** [handle_state_changes] *)
Definition handle_state_changes (buttons : list Button) : M unit :=
  inbox ← pending_frames;
  handle_state_changes_loop inbox buttons.

(** ** The key callback *)

(** [key_change_callback], the closure [_on_press_callback] returns: it
    reads the shared [state] dict as it is when the key event arrives.  A
    coroutine runs alone between two awaits, and the callback awaits
    nothing before its [send], as [_update_state] awaits nothing at all:
    each is one step on the shared state. *)
Definition key_change_callback (buttons : list Button) (key : nat)
    (key_pressed : bool) : M unit :=
  button ← lift (index buttons key);
  st ← get_state;
  update_key_image key button st key_pressed;;
  match key_pressed, service button with
  | true, Some service =>
      let data :=
        match service_data button, entity_id button with
        | [], Some eid => [("entity_id", JStr eid)]
        | data, _ => data
        end in
      call_service service data
  | _, _ => mret tt
  end.

(** ** The body of [main] inside [async with setup_ws(...)] *)

(** From the snapshot to the receive loop, for a deck of [key_count] keys.
    Registering the callback and setting the brightness touch only the
    deck driver and are left out. *)
Definition main_body (key_count : nat) (buttons : list Button) : M unit :=
  st ← get_states;
  put_state st;;
  for_each (seq 0 key_count) (redraw buttons);;
  subscribe_state_changes;;
  handle_state_changes buttons.

(** [main], for a deck that was found: the body runs on the connection
    [setup_ws] yields. *)
Definition main (net : list attempt) (key_count : nat)
    (buttons : list Button) (w : world)
  : list ws_event * world * outcome unit :=
  async_with_setup_ws
    (fun frames w => main_body key_count buttons (with_inbox w frames)) net w.

(** [n] calls of [_next_id] in a row, and what each returned. *)
Fixpoint next_ids (n : nat) : M (list Z) :=
  match n with
  | O => mret []
  | S n' =>
      i ← _next_id;
      rest ← next_ids n';
      mret (i :: rest)
  end.

(** The state the module starts in. *)
Definition initial_world : world :=
  {| _ID_COUNTER := 0; state := ∅; ws_inbox := []; ws_sent := [];
     deck_images := [] |}.

(** ** Vocabulary of the statements *)

(** [data] is a state_changed event frame naming [eid] with payload
    [new_state]; other fields of the frame are free. *)
Definition state_changed (data : json) (eid : string) (new_state : json) : Prop :=
  ∃ event event_data,
    getitem data "type" = Ok (JStr "event")
    ∧ getitem data "event" = Ok event
    ∧ getitem event "event_type" = Ok (JStr "state_changed")
    ∧ getitem event "data" = Ok event_data
    ∧ getitem event_data "entity_id" = Ok (JStr eid)
    ∧ getitem event_data "new_state" = Ok new_state.

(** [data] has a type other than ["event"], or is an event of a type other
    than ["state_changed"]. *)
Definition other_frame (data : json) : Prop :=
  (∃ ty, getitem data "type" = Ok ty ∧ eq_str ty "event" = false)
  ∨ (∃ event event_type,
       getitem data "type" = Ok (JStr "event")
       ∧ getitem data "event" = Ok event
       ∧ getitem event "event_type" = Ok event_type
       ∧ eq_str event_type "state_changed" = false).

(** The payload of the last event naming [eid], if any names it. *)
Definition last_named (eid : string) (events : list (string * json)) : option json :=
  snd <$> last (filter (fun ev => ev.1 = eid) events).

(** The snapshot wait as the specification words it, to compare with
    [get_states]: frames are discarded until a reply carrying the request's
    own correlation id arrives. *)
Definition reply_to (_id : Z) (data : json) : bool :=
  match getitem data "type", getitem data "id" with
  | Ok ty, Ok (JNum i) => eq_str ty "result" && Z.eqb i _id
  | _, _ => false
  end.

Fixpoint spec_get_states_loop (inbox : list inbound) (_id : Z)
  : M (gmap hashable json) :=
  match inbox with
  | [] => fun w => (w, Pending)
  | Reset :: rest => fun w => (with_inbox w rest, Raise ConnectionResetError)
  | Frame data :: rest =>
      fun w =>
        (if reply_to _id data then
           result ← lift (getitem data "result");
           state_dict ← lift (state_dict result);
           unsubscribe _id;;
           mret state_dict
         else spec_get_states_loop rest _id) (with_inbox w rest)
  end.

Definition spec_get_states : M (gmap hashable json) :=
  _id ← _next_id;
  send (JObj [("type", JStr "get_states"); ("id", JNum _id)]);;
  inbox ← pending_frames;
  spec_get_states_loop inbox _id.

(** The store after the events [events], applied in order to [st]. *)
Definition apply_events (st : gmap hashable json) (events : list (string * json))
  : gmap hashable json :=
  foldl (fun acc ev => <[HStr ev.1 := ev.2]> acc) st events.

(** [drawn], a key and the image put on it, is the not-pressed rendering
    of that key's button against the store [st]. *)
Definition rendering_of (buttons : list Button) (st : gmap hashable json)
    (drawn : nat * image) : Prop :=
  ∃ button args,
    buttons !! drawn.1 = Some button
    ∧ update_key_image_args button st false = Ok args
    ∧ render_key_image args = Ok drawn.2.

(** [key] can be drawn against [st]: its button exists and both the
    parameters and the image come out. *)
Definition renders (buttons : list Button) (st : gmap hashable json)
    (key : nat) : Prop :=
  ∃ button args img,
    buttons !! key = Some button
    ∧ update_key_image_args button st false = Ok args
    ∧ render_key_image args = Ok img.

(** ** Startup, and the activities that follow it *)

(** [main] inside the [async with], up to the receive loop: the snapshot,
    one drawing of every key, the subscription. *)
Definition startup (key_count : nat) (buttons : list Button) : M unit :=
  st ← get_states;
  put_state st;;
  for_each (seq 0 key_count) (redraw buttons);;
  subscribe_state_changes.

(** What happens on the event loop once [main] is in its receive loop: the
    hardware reports a key event and [key_change_callback] runs, or one
    turn of [handle_state_changes] takes the next frame. *)
Inductive activity : Type :=
| KeyEvent (key : nat) (key_pressed : bool)
| NextFrame.

Definition perform (buttons : list Button) (a : activity) : M unit :=
  match a with
  | KeyEvent key key_pressed => key_change_callback buttons key key_pressed
  | NextFrame =>
      data ← recv;
      _update_state data buttons
  end.

(** The state after a sequence of activities, whatever each came to: an
    exception in a key callback ends that callback only.  (An exception in
    a turn of the receive loop ends the loop; the runs in which no further
    frame is then taken are among these.) *)
Definition perform_all (buttons : list Button) (activities : list activity)
    (w : world) : world :=
  foldl (fun w a => (perform buttons a w).1) w activities.

(** The correlation id a sent frame carries. *)
Definition frame_id (payload : json) : option Z :=
  match getitem payload "id" with
  | Ok (JNum i) => Some i
  | _ => None
  end.

Definition sent_ids (w : world) : list Z := omap frame_id (ws_sent w).

(** No two sent frames carry the same id, and none carries an id the
    counter has yet to reach. *)
Definition ids_fresh (w : world) : Prop :=
  NoDup (sent_ids w) ∧ Forall (fun i => i <= _ID_COUNTER w) (sent_ids w).

(** From [w] to [w'] the counter did not go back, frames were only added,
    and the ids added are distinct and lie between the two counters. *)
Definition sends_fresh (w w' : world) : Prop :=
  _ID_COUNTER w <= _ID_COUNTER w'
  ∧ ∃ new, ws_sent w' = ws_sent w ++ new
      ∧ NoDup (omap frame_id new)
      ∧ Forall (fun i => _ID_COUNTER w < i <= _ID_COUNTER w') (omap frame_id new).

(** [m] only ever sends fresh ids. *)
Definition keeps_fresh {A} (m : M A) : Prop := ∀ w, sends_fresh w (m w).1.

(** [data] is a state_changed event frame whose ["entity_id"] is the
    value [eid], a string or not, with payload [new_state]. *)
Definition state_changed_for (data eid new_state : json) : Prop :=
  ∃ event event_data,
    getitem data "type" = Ok (JStr "event")
    ∧ getitem data "event" = Ok event
    ∧ getitem event "event_type" = Ok (JStr "state_changed")
    ∧ getitem event "data" = Ok event_data
    ∧ getitem event_data "entity_id" = Ok eid
    ∧ getitem event_data "new_state" = Ok new_state.

(** The key a record of the snapshot is filed under:
    [hash(record["entity_id"])]. *)
Definition record_key (record : json) : outcome hashable :=
  eid ← getitem record "entity_id";
  hash_key eid.

(** The frame names its entity, when it names one, by a string. *)
Definition string_keyed (data : json) : Prop :=
  ∀ event event_data v,
    getitem data "event" = Ok event ->
    getitem event "data" = Ok event_data ->
    getitem event_data "entity_id" = Ok v ->
    ∃ eid, v = JStr eid.

(** * Properties *)

(** ** Sequencing *)

(** One step of sequencing, as an equation to rewrite with. *)
Lemma bind_run {A B} (m : M A) (k : A -> M B) (w : world) :
  (m ≫= k) w =
  match m w with
  | (w', Ok a) => k a w'
  | (w', Raise e) => (w', Raise e)
  | (w', Pending) => (w', Pending)
  end.
Proof. reflexivity. Qed.

Lemma bind_lift_Ok {A B} (r : outcome A) (a : A) (k : A -> M B) (w : world) :
  r = Ok a -> (lift r ≫= k) w = k a w.
Proof. by intros ->. Qed.

Lemma eq_str_refl (s : string) : eq_str (JStr s) s = true.
Proof. apply String.eqb_refl. Qed.

Lemma eq_str_true (v : json) (s : string) : eq_str v s = true ↔ v = JStr s.
Proof.
  destruct v; cbn; try (split; [discriminate | done]).
  rewrite String.eqb_eq. split; [by intros -> | by intros [= ->]].
Qed.

(** ** Correlation ids *)

Lemma next_ids_from (n : nat) (w : world) :
  next_ids n w =
  (with_counter w (_ID_COUNTER w + Z.of_nat n),
   Ok ((fun k => _ID_COUNTER w + Z.of_nat k) <$> seq 1 n)).
Proof.
  revert w. induction n as [|n IH]; intros w.
  - cbn [next_ids Z.of_nat seq fmap list_fmap]. rewrite Z.add_0_r.
    by destruct w.
  - cbn [next_ids]. rewrite bind_run. cbn [_next_id].
    rewrite bind_run, IH. unfold mret, M_ret, with_counter. cbn. f_equal.
    + f_equal. lia.
    + f_equal.
      rewrite <- (fmap_S_seq 1 n), <- list_fmap_compose.
      apply (f_equal2 cons); [lia |].
      apply list_fmap_ext. intros _ k _. cbn. lia.
Qed.

(** C9.  Correlation ids are a strictly increasing integer sequence that
    starts at 1: [n] calls of [_next_id] from the module's initial state
    return exactly 1, 2, ..., n; from any state they return the [n]
    integers after the counter, so no id is returned twice; and a request
    takes its ["id"] from one such call (shown for subscribe_events and
    unsubscribe_events, whose frames do not depend on anything else). *)
Theorem correlation_ids_count_from_one (n : nat) (w : world) :
  (next_ids n initial_world).2 = Ok (Z.of_nat <$> seq 1 n)
  ∧ (∃ ids, (next_ids n w).2 = Ok ids
       ∧ ids = (fun k => _ID_COUNTER w + Z.of_nat k) <$> seq 1 n
       ∧ NoDup ids)
  ∧ (_next_id w).2 = Ok (_ID_COUNTER w + 1)
  ∧ _ID_COUNTER (_next_id w).1 = _ID_COUNTER w + 1
  ∧ ws_sent (subscribe_state_changes w).1 =
      ws_sent w ++ [JObj [("type", JStr "subscribe_events");
                          ("event_type", JStr "state_changed");
                          ("id", JNum (_ID_COUNTER w + 1))]]
  ∧ (∀ id_, ws_sent (unsubscribe id_ w).1 =
      ws_sent w ++ [JObj [("id", JNum (_ID_COUNTER w + 1));
                          ("type", JStr "unsubscribe_events");
                          ("subscription", JNum id_)]]).
Proof.
  split; [| split].
  - by rewrite next_ids_from.
  - exists ((fun k => _ID_COUNTER w + Z.of_nat k) <$> seq 1 n).
    rewrite next_ids_from. split_and!; [done.. |].
    apply NoDup_fmap_2; [| apply NoDup_seq].
    intros a b. lia.
  - repeat split; done.
Qed.

(** ** Rendering touches the deck only *)

Lemma update_key_image_run (key : nat) (button : Button)
    (st : gmap hashable json) (key_pressed : bool) (w : world) :
  update_key_image key button st key_pressed w =
  match update_key_image_args button st key_pressed ≫= render_key_image with
  | Ok img => (with_deck w (deck_images w ++ [(key, img)]), Ok tt)
  | Raise e => (w, Raise e)
  | Pending => (w, Pending)
  end.
Proof.
  unfold update_key_image. rewrite bind_run. unfold lift.
  destruct (update_key_image_args button st key_pressed) as [args| |];
    [| done..].
  rewrite bind_run. cbn. by destruct (render_key_image args).
Qed.

Lemma redraw_run (buttons : list Button) (key : nat) (w : world) :
  redraw buttons key w =
  match buttons !! key with
  | Some button => update_key_image key button (state w) false w
  | None => (w, Raise IndexError)
  end.
Proof.
  unfold redraw, index. rewrite bind_run. unfold lift.
  by destruct (buttons !! key).
Qed.

Lemma with_deck_same (w : world) : with_deck w (deck_images w) = w.
Proof. by destruct w. Qed.

(** The loop over the keys to redraw appends one image per key, in order,
    and stops at the first that fails. *)
Lemma redraw_all (buttons : list Button) (keys : list nat) (w : world) :
  ∃ drawn,
    (for_each keys (redraw buttons) w).1 = with_deck w (deck_images w ++ drawn)
    ∧ drawn.*1 `prefix_of` keys
    ∧ ((for_each keys (redraw buttons) w).2 = Ok tt -> drawn.*1 = keys)
    ∧ Forall (rendering_of buttons (state w)) drawn.
Proof.
  revert w. induction keys as [|key keys IH]; intros w.
  - exists []. cbn. by rewrite app_nil_r, with_deck_same.
  - assert (Hstop : ∀ r : outcome unit, r ≠ Ok tt ->
      ∃ drawn : list (nat * image),
        (w, r).1 = with_deck w (deck_images w ++ drawn)
        ∧ drawn.*1 `prefix_of` key :: keys
        ∧ ((w, r).2 = Ok tt -> drawn.*1 = key :: keys)
        ∧ Forall (rendering_of buttons (state w)) drawn).
    { intros r Hr. exists []. cbn. rewrite app_nil_r, with_deck_same.
      split_and!; [done | apply prefix_nil | done | constructor]. }
    cbn [for_each]. rewrite bind_run, redraw_run.
    destruct (buttons !! key) as [button|] eqn:Hb; [| by apply Hstop].
    rewrite update_key_image_run.
    destruct (update_key_image_args button (state w) false) as [args| |] eqn:Ha;
      cbn [mbind outcome_bind]; [| by apply Hstop..].
    destruct (render_key_image args) as [img| |] eqn:Hr; [| by apply Hstop..].
    destruct (IH (with_deck w (deck_images w ++ [(key, img)])))
      as (drawn & Hw & Hpre & Hall & Hrend).
    exists ((key, img) :: drawn). split_and!.
    + rewrite Hw. cbn. by rewrite <- app_assoc.
    + cbn. by apply prefix_cons.
    + intros Hok. cbn. f_equal. by apply Hall.
    + constructor; [| done]. exists button, args. done.
Qed.

(** When every key can be drawn, the loop ends normally. *)
Lemma redraw_all_Ok (buttons : list Button) (keys : list nat) (w : world) :
  Forall (renders buttons (state w)) keys ->
  (for_each keys (redraw buttons) w).2 = Ok tt.
Proof.
  revert w. induction keys as [|key keys IH]; intros w Hall; [done |].
  apply Forall_cons in Hall as [(button & args & img & Hb & Ha & Hr) Hall].
  cbn [for_each]. rewrite bind_run, redraw_run, Hb, update_key_image_run, Ha.
  cbn [mbind outcome_bind]. rewrite Hr. by apply IH.
Qed.

(** ** One frame of the receive loop *)

Lemma entity_id_eq_str (button : Button) (eid : string) :
  entity_id_eq button (JStr eid) = true ↔ entity_id button = Some eid.
Proof.
  unfold entity_id_eq. destruct (entity_id button) as [e|]; [| done].
  rewrite String.eqb_eq. split; [by intros -> | by intros [= ->]].
Qed.

Lemma elem_of_keys_any (eid : json) (buttons : list Button) (key : nat) :
  key ∈ _keys eid buttons
  ↔ ∃ button, buttons !! key = Some button ∧ entity_id_eq button eid = true.
Proof.
  unfold _keys. rewrite list_elem_of_fmap. split.
  - intros ([i b] & -> & Hin). apply list_elem_of_filter in Hin as [He Hin].
    apply elem_of_lookup_imap in Hin as (j & b' & Heq & Hb).
    injection Heq as -> ->. by exists b'.
  - intros (b & Hb & He). exists (key, b). split; [done |].
    apply list_elem_of_filter. split; [done |].
    apply elem_of_lookup_imap. by exists key, b.
Qed.

Lemma elem_of_keys (eid : string) (buttons : list Button) (key : nat) :
  key ∈ _keys (JStr eid) buttons
  ↔ ∃ button, buttons !! key = Some button ∧ entity_id button = Some eid.
Proof.
  rewrite elem_of_keys_any. by setoid_rewrite entity_id_eq_str.
Qed.

Lemma keys_NoDup (eid : json) (buttons : list Button) :
  NoDup (_keys eid buttons).
Proof.
  unfold _keys. apply (sublist_NoDup _ ((imap pair buttons).*1)).
  - rewrite fmap_imap, (imap_ext _ (fun j _ => id j)) by done.
    rewrite imap_seq_0, list_fmap_id. apply NoDup_seq.
  - apply fmap_sublist, sublist_filter.
Qed.

Lemma update_state_changed (data : json) (eid : string) (new_state : json)
    (buttons : list Button) (w : world) :
  state_changed data eid new_state ->
  _update_state data buttons w =
  for_each (_keys (JStr eid) buttons) (redraw buttons)
    (with_state w (<[HStr eid := new_state]> (state w))).
Proof.
  intros (event & event_data & Hty & Hev & Het & Hd & He & Hn).
  unfold _update_state.
  rewrite (bind_lift_Ok _ _ _ _ Hty), eq_str_refl.
  rewrite (bind_lift_Ok _ _ _ _ Hev), (bind_lift_Ok _ _ _ _ Het), eq_str_refl.
  rewrite (bind_lift_Ok _ _ _ _ Hd), (bind_lift_Ok _ _ _ _ He).
  by rewrite (bind_lift_Ok _ _ _ _ Hn).
Qed.

Lemma update_other_frame (data : json) (buttons : list Button) (w : world) :
  other_frame data -> _update_state data buttons w = (w, Ok tt).
Proof.
  intros [(ty & Hty & Hne) | (event & et & Hty & Hev & Het & Hne)];
    unfold _update_state; rewrite (bind_lift_Ok _ _ _ _ Hty).
  - by rewrite Hne.
  - rewrite eq_str_refl, (bind_lift_Ok _ _ _ _ Hev), (bind_lift_Ok _ _ _ _ Het).
    by rewrite Hne.
Qed.

(** C5.  One inbound frame re-renders exactly the keys whose button binds
    the entity the frame names, each once and in key order, against the
    updated store, and changes nothing else but that entity's entry: it
    ends normally when each of those keys can be drawn, and then it has
    drawn them all (when a rendering raises, the keys after it are not
    reached, and no other key is ever drawn).  A frame whose type is not ["event"], or whose event
    type is not ["state_changed"], is ignored silently: nothing raised, no
    store entry changed, no key redrawn. *)
Theorem update_state_redraws_bound_keys (data : json) (buttons : list Button)
    (w : world) :
  (∀ eid new_state, state_changed data eid new_state ->
     ∃ drawn,
       (_update_state data buttons w).1 =
         with_deck (with_state w (<[HStr eid := new_state]> (state w)))
                   (deck_images w ++ drawn)
       ∧ drawn.*1 `prefix_of` _keys (JStr eid) buttons
       ∧ ((_update_state data buttons w).2 = Ok tt ->
            drawn.*1 = _keys (JStr eid) buttons)
       ∧ (Forall (renders buttons (<[HStr eid := new_state]> (state w)))
                 (_keys (JStr eid) buttons) ->
            (_update_state data buttons w).2 = Ok tt)
       ∧ Forall (rendering_of buttons (<[HStr eid := new_state]> (state w))) drawn
       ∧ NoDup (_keys (JStr eid) buttons)
       ∧ (∀ key, key ∈ _keys (JStr eid) buttons
            ↔ ∃ button, buttons !! key = Some button
                        ∧ entity_id button = Some eid))
  ∧ (other_frame data -> _update_state data buttons w = (w, Ok tt)).
Proof.
  split.
  - intros eid new_state Hsc. rewrite (update_state_changed _ _ _ _ _ Hsc).
    destruct (redraw_all buttons (_keys (JStr eid) buttons)
                (with_state w (<[HStr eid := new_state]> (state w))))
      as (drawn & Hw & Hpre & Hall & Hrend).
    exists drawn. split_and!.
    + exact Hw.
    + exact Hpre.
    + exact Hall.
    + exact (redraw_all_Ok buttons (_keys (JStr eid) buttons)
               (with_state w (<[HStr eid := new_state]> (state w)))).
    + exact Hrend.
    + apply keys_NoDup.
    + intros key. apply elem_of_keys.
  - apply update_other_frame.
Qed.

(** ** The store under a sequence of events *)

Lemma lookup_apply_events (st : gmap hashable json)
    (events : list (string * json)) (eid : string) :
  apply_events st events !! HStr eid =
  from_option Some (st !! HStr eid) (last_named eid events).
Proof.
  unfold apply_events, last_named.
  induction events as [|[e new_state] events IH] using rev_ind; [done |].
  rewrite foldl_app, filter_app. cbn [foldl fst snd].
  rewrite filter_cons, filter_nil. destruct (decide (e = eid)) as [->|Hne].
  - rewrite decide_True by done. by rewrite last_snoc, lookup_insert_eq.
  - rewrite decide_False by done.
    by rewrite app_nil_r, lookup_insert_ne by congruence.
Qed.

Lemma for_each_redraw_frame (buttons : list Button) (keys : list nat)
    (w : world) :
  state (for_each keys (redraw buttons) w).1 = state w
  ∧ ws_inbox (for_each keys (redraw buttons) w).1 = ws_inbox w
  ∧ ws_sent (for_each keys (redraw buttons) w).1 = ws_sent w
  ∧ _ID_COUNTER (for_each keys (redraw buttons) w).1 = _ID_COUNTER w.
Proof.
  destruct (redraw_all buttons keys w) as (drawn & -> & _). done.
Qed.

(** Whatever the frame, [_update_state] reads nothing from the connection,
    sends nothing and draws no id. *)
Lemma update_state_frame (data : json) (buttons : list Button) (w : world) :
  ws_inbox (_update_state data buttons w).1 = ws_inbox w
  ∧ ws_sent (_update_state data buttons w).1 = ws_sent w
  ∧ _ID_COUNTER (_update_state data buttons w).1 = _ID_COUNTER w.
Proof.
  unfold _update_state, lift. rewrite bind_run.
  destruct (getitem data "type") as [ty| |]; [| done..].
  destruct (eq_str ty "event"); [| done].
  rewrite bind_run.
  destruct (getitem data "event") as [event| |]; [| done..].
  rewrite bind_run.
  destruct (getitem event "event_type") as [event_type| |]; [| done..].
  destruct (eq_str event_type "state_changed"); [| done].
  rewrite bind_run.
  destruct (getitem event "data") as [event_data| |]; [| done..].
  rewrite bind_run.
  destruct (getitem event_data "entity_id") as [eid| |]; [| done..].
  rewrite bind_run.
  destruct (getitem event_data "new_state") as [new_state| |]; [| done..].
  rewrite bind_run.
  destruct (hash_key eid) as [key| |]; [| done..].
  exact (proj2 (for_each_redraw_frame buttons (_keys eid buttons)
                  (with_state w (<[key := new_state]> (state w))))).
Qed.

(** The two loops written by recursion on the frames to come are the
    source's [while True] around [recv]: one turn takes the next frame off
    the connection and goes round with what is left. *)
Lemma handle_state_changes_loop_turn (buttons : list Button) (w : world) :
  handle_state_changes_loop (ws_inbox w) buttons w =
  (data ← recv;
   _update_state data buttons;;
   inbox ← pending_frames;
   handle_state_changes_loop inbox buttons) w.
Proof.
  rewrite bind_run. unfold recv.
  destruct (ws_inbox w) as [|[data|] rest] eqn:Hin; [done | | done].
  cbn [handle_state_changes_loop]. rewrite !bind_run.
  destruct (update_state_frame data buttons (with_inbox w rest)) as (Hbox & _).
  destruct (_update_state data buttons (with_inbox w rest)) as [w1 [[]| |]];
    [| done..].
  rewrite bind_run. unfold pending_frames. cbn [fst] in Hbox. by rewrite Hbox.
Qed.

Lemma get_states_loop_turn (_id : Z) (w : world) :
  get_states_loop (ws_inbox w) _id w =
  (data ← recv;
   ty ← lift (getitem data "type");
   if eq_str ty "result" then
     result ← lift (getitem data "result");
     state_dict ← lift (state_dict result);
     unsubscribe _id;;
     mret state_dict
   else
     inbox ← pending_frames;
     get_states_loop inbox _id) w.
Proof.
  rewrite bind_run. unfold recv.
  destruct (ws_inbox w) as [|[data|] rest] eqn:Hin; [done | | done].
  cbn [get_states_loop]. unfold lift. rewrite !bind_run.
  destruct (getitem data "type") as [ty| |]; [| done..].
  by destruct (eq_str ty "result").
Qed.

Lemma receive_loop_store (buttons : list Button) (frames : list json) :
  ∀ (events : list (string * json)) (w : world),
    Forall2 (fun data ev => state_changed data ev.1 ev.2) frames events ->
    ws_inbox w = Frame <$> frames ->
    ∃ k, (k <= length frames)%nat
      ∧ ws_inbox (handle_state_changes_loop (Frame <$> frames) buttons w).1
          = Frame <$> drop k frames
      ∧ state (handle_state_changes_loop (Frame <$> frames) buttons w).1
          = apply_events (state w) (take k events)
      ∧ (handle_state_changes_loop (Frame <$> frames) buttons w).2 ≠ Ok tt.
Proof.
  induction frames as [|data frames IH]; intros events w Hall Hin.
  - exists 0%nat. cbn. by rewrite Hin.
  - destruct events as [|[eid new_state] events]; [by inv Hall |].
    apply Forall2_cons in Hall as [Hsc Hall]. cbn [fst snd] in Hsc.
    cbn [fmap list_fmap handle_state_changes_loop].
    rewrite bind_run, (update_state_changed _ _ _ _ _ Hsc).
    set (w0 := with_state (with_inbox w (Frame <$> frames)) _).
    destruct (for_each_redraw_frame buttons (_keys (JStr eid) buttons) w0)
      as (Hst & Hbox & _).
    destruct (for_each (_keys (JStr eid) buttons) (redraw buttons) w0)
      as [w1 [[]| |]] eqn:Hrun; cbn [fst snd] in Hst, Hbox.
    + destruct (IH events w1 Hall Hbox) as (k & Hk & Hbox' & Hst' & Hne).
      exists (S k). split_and!; [cbn; lia | done | | done].
      rewrite Hst', Hst. done.
    + exists 1%nat. split_and!; [cbn; lia | done | | done].
      cbn [fst take]. by rewrite Hst.
    + exists 1%nat. split_and!; [cbn; lia | done | | done].
      cbn [fst take]. by rewrite Hst.
Qed.

(** When every key can be drawn whatever the store holds, the loop takes
    every frame and is left waiting for the next. *)
Lemma receive_loop_takes_all (buttons : list Button) (frames : list json) :
  (∀ st key, (key < length buttons)%nat -> renders buttons st key) ->
  ∀ (events : list (string * json)) (w : world),
    Forall2 (fun data ev => state_changed data ev.1 ev.2) frames events ->
    ws_inbox w = Frame <$> frames ->
    ws_inbox (handle_state_changes_loop (Frame <$> frames) buttons w).1 = []
    ∧ (handle_state_changes_loop (Frame <$> frames) buttons w).2 = Pending.
Proof.
  intros Hdraw.
  induction frames as [|data frames IH]; intros events w Hall Hin; [done |].
  destruct events as [|[eid new_state] events]; [by inv Hall |].
  apply Forall2_cons in Hall as [Hsc Hall]. cbn [fst snd] in Hsc.
  cbn [fmap list_fmap handle_state_changes_loop].
  rewrite bind_run, (update_state_changed _ _ _ _ _ Hsc).
  set (w0 := with_state (with_inbox w (Frame <$> frames)) _).
  destruct (for_each_redraw_frame buttons (_keys (JStr eid) buttons) w0)
    as (_ & Hbox & _).
  assert (Hok : (for_each (_keys (JStr eid) buttons) (redraw buttons) w0).2 = Ok tt).
  { apply redraw_all_Ok, Forall_forall. intros key Hkey. apply Hdraw.
    apply elem_of_keys in Hkey as (button & Hb & _).
    by apply lookup_lt_Some in Hb. }
  destruct (for_each (_keys (JStr eid) buttons) (redraw buttons) w0)
    as [w1 r] eqn:Hrun. cbn [fst snd] in Hbox, Hok. subst r.
  by apply (IH events).
Qed.

(** C1.  Last write wins.  Let the connection deliver a sequence of
    state_changed event frames.  After [handle_state_changes] has taken
    them in arrival order, the store maps every entity to the [new_state]
    of the last frame naming it, and leaves an entity no frame named as it
    was.  A frame counts as processed once it has been taken off the
    connection.  All of them are when no rendering raises, and the loop is
    then left waiting for the next frame; when one raises, the same holds
    of the frames up to and including that one. *)
Theorem state_store_last_write_wins (buttons : list Button)
    (frames : list json) (events : list (string * json)) (w : world)
    (eid : string) :
  Forall2 (fun data ev => state_changed data ev.1 ev.2) frames events ->
  ws_inbox w = Frame <$> frames ->
  let w' := (handle_state_changes buttons w).1 in
  let processed := (length frames - length (ws_inbox w'))%nat in
  state w' !! HStr eid =
    from_option Some (state w !! HStr eid) (last_named eid (take processed events))
  ∧ (ws_inbox w' = [] ->
     state w' !! HStr eid = from_option Some (state w !! HStr eid) (last_named eid events))
  ∧ ((∀ st key, (key < length buttons)%nat -> renders buttons st key) ->
     ws_inbox w' = [] ∧ (handle_state_changes buttons w).2 = Pending)
  ∧ (handle_state_changes buttons w).2 ≠ Ok tt.
Proof.
  intros Hall Hin w' processed. subst w' processed.
  unfold handle_state_changes. rewrite bind_run. unfold pending_frames.
  rewrite Hin.
  destruct (receive_loop_store buttons frames events w Hall Hin)
    as (k & Hk & Hbox & Hst & Hne).
  split_and!; [| | | done].
  - rewrite Hbox, Hst, length_fmap, length_drop.
    replace (length frames - (length frames - k))%nat with k by lia.
    apply lookup_apply_events.
  - rewrite Hbox, Hst. intros Hnil. apply fmap_nil_inv in Hnil.
    apply (f_equal length) in Hnil. rewrite length_drop in Hnil. cbn in Hnil.
    assert (k = length frames) as -> by lia.
    rewrite lookup_apply_events.
    apply Forall2_length in Hall. by rewrite Hall, firstn_all.
  - intros Hdraw. by apply (receive_loop_takes_all buttons frames Hdraw events).
Qed.

(** ** The startup snapshot *)

Lemma state_dict_of_records (records : list json) (ids : list string) :
  Forall2 (fun record e => getitem record "entity_id" = Ok (JStr e)) records ids ->
  ∀ acc, state_dict_of records acc = Ok (apply_events acc (zip ids records)).
Proof.
  induction 1 as [|record e records ids He _ IH]; intros acc; [done |].
  cbn [state_dict_of]. rewrite He. apply IH.
Qed.

Lemma get_states_loop_first_result (skipped : list json) (reply result : json)
    (dict : gmap hashable json) (rest : list inbound) (_id : Z) :
  Forall (fun data => ∃ ty, getitem data "type" = Ok ty
                            ∧ eq_str ty "result" = false) skipped ->
  getitem reply "type" = Ok (JStr "result") ->
  getitem reply "result" = Ok result ->
  state_dict result = Ok dict ->
  ∀ w, get_states_loop ((Frame <$> skipped) ++ Frame reply :: rest) _id w =
    ({| _ID_COUNTER := _ID_COUNTER w + 1; state := state w; ws_inbox := rest;
        ws_sent := ws_sent w ++ [JObj [("id", JNum (_ID_COUNTER w + 1));
                                       ("type", JStr "unsubscribe_events");
                                       ("subscription", JNum _id)]];
        deck_images := deck_images w |}, Ok dict).
Proof.
  intros Hskip Hty Hres Hdict.
  induction Hskip as [|data skipped (ty & Hd & Hne) _ IH]; intros w.
  - cbn [fmap list_fmap app get_states_loop].
    rewrite (bind_lift_Ok _ _ _ _ Hty), eq_str_refl.
    rewrite (bind_lift_Ok _ _ _ _ Hres), (bind_lift_Ok _ _ _ _ Hdict).
    reflexivity.
  - cbn [fmap list_fmap app get_states_loop].
    rewrite (bind_lift_Ok _ _ _ _ Hd), Hne. by rewrite IH.
Qed.

(** C3, as amended.  [get_states] sends a get_states request carrying a
    fresh correlation id, then discards frames until the first frame whose
    type is ["result"] arrives, whatever id that frame carries; it builds
    the initial store from that frame's result list, keyed by entity_id (a
    later record of an entity replacing an earlier one), sends an
    unsubscribe_events request that has a fresh id of its own and names the
    get_states request's id as its subscription, and returns the store. *)
Theorem get_states_takes_first_result (skipped : list json) (reply : json)
    (records : list json) (ids : list string) (rest : list inbound)
    (w : world) :
  Forall (fun data => ∃ ty, getitem data "type" = Ok ty
                            ∧ eq_str ty "result" = false) skipped ->
  getitem reply "type" = Ok (JStr "result") ->
  getitem reply "result" = Ok (JArr records) ->
  Forall2 (fun record e => getitem record "entity_id" = Ok (JStr e)) records ids ->
  ws_inbox w = (Frame <$> skipped) ++ Frame reply :: rest ->
  get_states w =
    ({| _ID_COUNTER := _ID_COUNTER w + 2; state := state w; ws_inbox := rest;
        ws_sent := ws_sent w ++
          [JObj [("type", JStr "get_states"); ("id", JNum (_ID_COUNTER w + 1))];
           JObj [("id", JNum (_ID_COUNTER w + 2));
                 ("type", JStr "unsubscribe_events");
                 ("subscription", JNum (_ID_COUNTER w + 1))]];
        deck_images := deck_images w |},
     Ok (apply_events ∅ (zip ids records))).
Proof.
  intros Hskip Hty Hres Hrec Hin.
  unfold get_states. rewrite bind_run. cbn [_next_id].
  rewrite bind_run. cbn [send]. rewrite bind_run. unfold pending_frames.
  cbn [ws_inbox with_sent with_counter]. rewrite Hin.
  rewrite (get_states_loop_first_result skipped reply (JArr records)
             (apply_events ∅ (zip ids records)) rest _ Hskip Hty Hres).
  2: { cbn [state_dict]. by apply state_dict_of_records. }
  cbn [_ID_COUNTER state ws_sent deck_images with_sent with_counter].
  rewrite <- app_assoc. cbn [app].
  by replace (_ID_COUNTER w + 1 + 1) with (_ID_COUNTER w + 2) by lia.
Qed.

(** ** Service identifiers and [call_service] *)

Lemma split_dot_length (s : string) :
  length (split_dot s) = S (count_dots s).
Proof.
  induction s as [|c s IH]; [done |].
  cbn [split_dot count_dots]. destruct (Ascii.eqb c "."); cbn [length].
  - by rewrite IH.
  - destruct (split_dot s); [done |]. done.
Qed.

Lemma split_dot_once_head (s : string) : is_Some (head (split_dot_once s)).
Proof.
  destruct s as [|c s]; cbn; [by eexists |].
  destruct (Ascii.eqb c "."); [by eexists |].
  destruct (split_dot_once s); by eexists.
Qed.

Lemma call_service_run (service : string) (data : list (string * json))
    (w : world) :
  (count_dots service ≠ 1%nat ->
     call_service service data w = (w, Raise ValueError))
  ∧ (count_dots service = 1%nat ->
     ∃ d s, split_dot service = [d; s]
       ∧ call_service service data w =
           (with_sent (with_counter w (_ID_COUNTER w + 1))
              (ws_sent w ++ [JObj [("id", JNum (_ID_COUNTER w + 1));
                                   ("type", JStr "call_service");
                                   ("domain", JStr d);
                                   ("service", JStr s);
                                   ("service_data", JObj data)]]),
            Ok tt)).
Proof.
  pose proof (split_dot_length service) as Hlen. unfold call_service.
  destruct (split_dot service) as [|d [|s [|x pieces]]]; cbn in Hlen; split;
    intros Hdots; try done; try lia.
  by exists d, s.
Qed.

Lemma key_change_callback_run (buttons : list Button) (key : nat)
    (key_pressed : bool) (button : Button) (w : world) :
  buttons !! key = Some button ->
  key_change_callback buttons key key_pressed w =
  match update_key_image key button (state w) key_pressed w with
  | (w1, Ok _) =>
      match key_pressed, service button with
      | true, Some service =>
          call_service service
            match service_data button, entity_id button with
            | [], Some eid => [("entity_id", JStr eid)]
            | data, _ => data
            end w1
      | _, _ => (w1, Ok tt)
      end
  | (w1, Raise e) => (w1, Raise e)
  | (w1, Pending) => (w1, Pending)
  end.
Proof.
  intros Hb. unfold key_change_callback, index. rewrite Hb.
  rewrite bind_run. unfold lift at 1. rewrite bind_run. unfold get_state at 1.
  rewrite bind_run.
  destruct (update_key_image key button (state w) key_pressed w)
    as [w1 [[]| |]]; try done.
  by destruct key_pressed, (service button).
Qed.

Lemma update_key_image_frame (key : nat) (button : Button)
    (st : gmap hashable json) (key_pressed : bool) (w : world) :
  _ID_COUNTER (update_key_image key button st key_pressed w).1 = _ID_COUNTER w
  ∧ state (update_key_image key button st key_pressed w).1 = state w
  ∧ ws_inbox (update_key_image key button st key_pressed w).1 = ws_inbox w
  ∧ ws_sent (update_key_image key button st key_pressed w).1 = ws_sent w.
Proof.
  rewrite update_key_image_run.
  by destruct (update_key_image_args button st key_pressed ≫= render_key_image).
Qed.

(** C10.  [call_service] returns normally exactly for the service
    identifiers with one dot.  For every identifier with no dot or with
    more than one, the two-value unpacking of [service.split(".")] raises
    [ValueError] before an id is drawn or a frame sent, although
    [Button.domain] accepts any identifier, cutting at the first dot only;
    so a press on a button with such a service never sends a command: the
    press handler redraws the key and then ends in that [ValueError]. *)
Theorem call_service_needs_exactly_one_dot (service_ : string)
    (data : list (string * json)) (w : world) :
  ((call_service service_ data w).2 = Ok tt ↔ count_dots service_ = 1%nat)
  ∧ (count_dots service_ ≠ 1%nat ->
       call_service service_ data w = (w, Raise ValueError)
       ∧ (∀ button, service button = Some service_ -> is_Some (domain button))
       ∧ (∀ buttons key button,
            buttons !! key = Some button ->
            service button = Some service_ ->
            (key_change_callback buttons key true w).2 ≠ Ok tt
            ∧ ws_sent (key_change_callback buttons key true w).1 = ws_sent w
            ∧ _ID_COUNTER (key_change_callback buttons key true w).1
              = _ID_COUNTER w
            ∧ ((update_key_image key button (state w) true w).2 = Ok tt ->
                 (key_change_callback buttons key true w).2
                 = Raise ValueError))).
Proof.
  destruct (call_service_run service_ data w) as [Hbad Hgood]. split.
  - split.
    + intros Hok. destruct (decide (count_dots service_ = 1%nat)); [done |].
      by rewrite Hbad in Hok.
    + intros Hone. destruct (Hgood Hone) as (d & s & _ & ->). done.
  - intros Hdots. split_and!; [by apply Hbad | |].
    + intros button Hs. unfold domain. rewrite Hs. apply split_dot_once_head.
    + intros buttons key button Hb Hs.
      rewrite (key_change_callback_run _ _ _ _ _ Hb), Hs.
      destruct (update_key_image_frame key button (state w) true w)
        as (Hc & _ & _ & Hsent).
      destruct (update_key_image key button (state w) true w)
        as [w1 [[]| |]]; cbn [fst snd] in *; try done.
      destruct (call_service_run service_
        match service_data button, entity_id button with
        | [], Some eid => [("entity_id", JStr eid)]
        | data, _ => data
        end w1) as [-> _]; done.
Qed.

(** C6.  On a press of a button that carries a service, once the key has
    been redrawn, one call_service frame is sent, with a fresh id and the
    service identifier cut at its dot.  Its parameters are the configured
    [service_data] when there is any; when none is configured and the
    button is bound to an entity they are the single implicit parameter
    [{"entity_id": entity_id}]; when the button has neither they are empty. *)
Theorem press_sends_configured_or_implicit_data (buttons : list Button)
    (key : nat) (button : Button) (service_ d s : string)
    (args : render_args) (img : image) (w : world) :
  buttons !! key = Some button ->
  service button = Some service_ ->
  split_dot service_ = [d; s] ->
  update_key_image_args button (state w) true = Ok args ->
  render_key_image args = Ok img ->
  ∃ data,
    key_change_callback buttons key true w =
      ({| _ID_COUNTER := _ID_COUNTER w + 1; state := state w;
          ws_inbox := ws_inbox w;
          ws_sent := ws_sent w ++ [JObj [("id", JNum (_ID_COUNTER w + 1));
                                         ("type", JStr "call_service");
                                         ("domain", JStr d);
                                         ("service", JStr s);
                                         ("service_data", JObj data)]];
          deck_images := deck_images w ++ [(key, img)] |}, Ok tt)
    ∧ (service_data button ≠ [] -> data = service_data button)
    ∧ (∀ eid, service_data button = [] -> entity_id button = Some eid ->
         data = [("entity_id", JStr eid)])
    ∧ (service_data button = [] -> entity_id button = None -> data = []).
Proof.
  intros Hb Hs Hsplit Hargs Himg.
  exists match service_data button, entity_id button with
         | [], Some eid => [("entity_id", JStr eid)]
         | data, _ => data
         end.
  split.
  - rewrite (key_change_callback_run _ _ _ _ _ Hb), Hs, update_key_image_run.
    rewrite Hargs. cbn [mbind outcome_bind]. rewrite Himg.
    unfold call_service. rewrite Hsplit. done.
  - split_and!.
    + by destruct (service_data button), (entity_id button).
    + by intros eid -> ->.
    + by intros -> ->.
Qed.

Lemma bind_ret_tt (m : M unit) (w : world) : (m;; mret tt) w = m w.
Proof. rewrite bind_run. by destruct (m w) as [w1 [[]| |]]. Qed.

(** C7.  A release (pressed flag false) never sends anything: it draws no
    id and leaves the sent frames as they were, and all it does is redraw
    the key exactly as the not-pressed rendering of the receive loop does.
    Whenever a key event changes the frames sent, it is a press. *)
Theorem release_never_calls_service (buttons : list Button) (key : nat)
    (w : world) :
  ws_sent (key_change_callback buttons key false w).1 = ws_sent w
  ∧ _ID_COUNTER (key_change_callback buttons key false w).1 = _ID_COUNTER w
  ∧ key_change_callback buttons key false w = redraw buttons key w
  ∧ (∀ key_pressed,
       ws_sent (key_change_callback buttons key key_pressed w).1 ≠ ws_sent w ->
       key_pressed = true).
Proof.
  assert (Hrel : key_change_callback buttons key false w = redraw buttons key w).
  { rewrite redraw_run. unfold key_change_callback, index.
    destruct (buttons !! key) as [button|]; [| done].
    rewrite bind_run. unfold lift at 1. rewrite bind_run. unfold get_state at 1.
    apply bind_ret_tt. }
  assert (Hsent : ws_sent (key_change_callback buttons key false w).1 = ws_sent w
                  ∧ _ID_COUNTER (key_change_callback buttons key false w).1
                    = _ID_COUNTER w).
  { rewrite Hrel, redraw_run. destruct (buttons !! key) as [button|]; [| done].
    by destruct (update_key_image_frame key button (state w) false w)
      as (-> & _ & _ & ->). }
  split_and!; [apply Hsent | apply Hsent | done |].
  intros [] Hne; [done |]. by destruct Hsent.
Qed.

(** ** Rendering parameters of a button whose entity is in the store *)

Lemma update_key_image_args_present (button : Button)
    (st : gmap hashable json) (key_pressed : bool) (eid : string)
    (record : json) :
  entity_id button = Some eid ->
  st !! HStr eid = Some record ->
  update_key_image_args button st key_pressed =
    (text ← _render_jinja (text button) [("state", record)];
     text_color ←
       match text_color button with
       | Some template => _render_jinja template [("state", record)]
       | None =>
           value ← getitem record "state";
           mret (if eq_str value "on" then "orangered" else "white")
       end;
     mret {| label_text := text;
             arg_text_color := if key_pressed then "green" else text_color;
             arg_icon_mdi :=
               match icon_mdi button with
               | Some name => Some name
               | None =>
                   match icon button with
                   | None => domain button ≫= (DEFAULT_MDI_ICONS !!.)
                   | Some _ => None
                   end
               end;
             icon_filename := icon button;
             font_size := text_size button |}).
Proof.
  intros He Hst. unfold update_key_image_args, entity_key. rewrite He, Hst.
  destruct (_render_jinja (text button) [("state", record)]); cbn; try done.
  destruct (text_color button) as [template|]; cbn.
  - by destruct (_render_jinja template [("state", record)]).
  - by destruct (getitem record "state").
Qed.

(** C8.  For a button bound to an entity that is in the store, the key not
    pressed, the text colour handed to the renderer is: the evaluation of
    the button's colour template against the entity's state record when a
    colour is configured; otherwise ["orangered"], the highlight, when the
    record's ["state"] value equals ["on"]; otherwise ["white"], the
    default. *)
Theorem text_color_resolution (button : Button) (st : gmap hashable json)
    (eid : string) (record : json) (label : string) :
  entity_id button = Some eid ->
  st !! HStr eid = Some record ->
  _render_jinja (text button) [("state", record)] = Ok label ->
  (∀ template color,
     text_color button = Some template ->
     _render_jinja template [("state", record)] = Ok color ->
     ∃ args, update_key_image_args button st false = Ok args
             ∧ arg_text_color args = color)
  ∧ (∀ value,
     text_color button = None ->
     getitem record "state" = Ok value ->
     ∃ args, update_key_image_args button st false = Ok args
             ∧ (value = JStr "on" -> arg_text_color args = "orangered")
             ∧ (value ≠ JStr "on" -> arg_text_color args = "white")).
Proof.
  intros He Hst Hlabel.
  rewrite (update_key_image_args_present _ _ _ _ _ He Hst), Hlabel.
  cbn [mbind outcome_bind]. split.
  - intros template color -> ->. cbn. by eexists.
  - intros value -> ->. cbn. eexists. split; [done |]. cbn. split.
    + by intros ->.
    + intros Hne. destruct (eq_str value "on") eqn:Heq; [| done].
      by apply eq_str_true in Heq.
Qed.

Lemma default_icons_table :
  DEFAULT_MDI_ICONS !! "light" = Some "lightbulb"
  ∧ DEFAULT_MDI_ICONS !! "switch" = Some "power-socket-eu"
  ∧ DEFAULT_MDI_ICONS !! "script" = None.
Proof. unfold DEFAULT_MDI_ICONS. split_and!; by simplify_map_eq. Qed.

(** X23.  What the code does about default icons.  For a button bound to
    an entity that is in the store,
    the default icon of the domain is used only when neither an icon
    identifier ([icon_mdi]) nor a static icon path ([icon]) is configured:
    a configured identifier is used as it is, a configured path leaves
    the identifier empty, and with neither the identifier is the entry of
    [DEFAULT_MDI_ICONS] for the domain, if there is one.  The domain is
    that of the button's action identifier, the part of [service] before
    its first dot, as [Button.domain] returns it, and not that of the
    bound entity.  So with no icon fields, an action identifier of domain
    ["light"] renders the light default (["lightbulb"]), one of domain
    ["switch"] the power-socket default (["power-socket-eu"]), one of
    domain ["script"], which has no entry in the table, no icon at all;
    and a button with no action identifier renders no icon either. *)
Theorem domain_default_icon (button : Button) (st : gmap hashable json)
    (key_pressed : bool) (eid : string) (record : json) (args : render_args) :
  entity_id button = Some eid ->
  st !! HStr eid = Some record ->
  update_key_image_args button st key_pressed = Ok args ->
  (∀ name, icon_mdi button = Some name -> arg_icon_mdi args = Some name)
  ∧ (∀ path, icon_mdi button = None -> icon button = Some path ->
       arg_icon_mdi args = None ∧ icon_filename args = Some path)
  ∧ (icon_mdi button = None -> icon button = None ->
       icon_filename args = None
       ∧ arg_icon_mdi args = domain button ≫= (DEFAULT_MDI_ICONS !!.)
       ∧ (domain button = Some "light" -> arg_icon_mdi args = Some "lightbulb")
       ∧ (domain button = Some "switch" ->
            arg_icon_mdi args = Some "power-socket-eu")
       ∧ (domain button = Some "script" -> arg_icon_mdi args = None)
       ∧ (service button = None -> arg_icon_mdi args = None)).
Proof.
  intros He Hst. rewrite (update_key_image_args_present _ _ _ _ _ He Hst).
  destruct (_render_jinja (text button) [("state", record)]) as [label| |];
    cbn [mbind outcome_bind]; try done.
  destruct (match text_color button with
            | Some template => _render_jinja template [("state", record)]
            | None => _
            end) as [color| |]; cbn [mbind outcome_bind]; try done.
  intros [= <-]. cbn [arg_icon_mdi icon_filename].
  destruct default_icons_table as (Hlight & Hswitch & Hscript).
  split_and!.
  - by intros name ->.
  - by intros path -> ->.
  - intros -> ->. split_and!; try done.
    + by intros ->.
    + by intros ->.
    + by intros ->.
    + unfold domain. by intros ->.
Qed.

(** ** Two more facts about the rendering parameters *)

(** A pressed key is drawn in ["green"], whatever the store says. *)
Lemma pressed_overrides_text_color (button : Button) (st : gmap hashable json)
    (args : render_args) :
  update_key_image_args button st true = Ok args ->
  arg_text_color args = "green".
Proof.
  unfold update_key_image_args.
  destruct (match st !! entity_key button with
            | Some record => _
            | None => _
            end) as [[[label color] name]| |]; cbn [mbind outcome_bind];
    [| done..].
  by intros [= <-].
Qed.

(** A button whose entity is not in the store is drawn from its own fields
    alone: the literal text, the configured colour or ["white"], and no
    icon taken from the domain. *)
Lemma unbound_button_rendering (button : Button) (st : gmap hashable json) :
  st !! entity_key button = None ->
  update_key_image_args button st false =
    Ok {| label_text := text button;
          arg_text_color := match text_color button with
                            | Some (String c rest) => String c rest
                            | _ => "white"
                            end;
          arg_icon_mdi := icon_mdi button;
          icon_filename := icon button;
          font_size := text_size button |}.
Proof. intros Hnone. unfold update_key_image_args. by rewrite Hnone. Qed.

(** ** Ids of the frames sent *)

Lemma sends_fresh_refl (w w' : world) :
  _ID_COUNTER w' = _ID_COUNTER w -> ws_sent w' = ws_sent w -> sends_fresh w w'.
Proof.
  intros Hc Hs. split; [lia |]. exists []. rewrite Hs, app_nil_r.
  split_and!; [done | constructor | constructor].
Qed.

Lemma sends_fresh_trans (w1 w2 w3 : world) :
  sends_fresh w1 w2 -> sends_fresh w2 w3 -> sends_fresh w1 w3.
Proof.
  intros (Hc1 & new1 & Hs1 & Hnd1 & Hr1) (Hc2 & new2 & Hs2 & Hnd2 & Hr2).
  split; [lia |]. exists (new1 ++ new2).
  rewrite Hs2, Hs1, <- app_assoc, omap_app. split_and!; [done | |].
  - apply NoDup_app. split_and!; [done | | done].
    intros i Hi1 Hi2.
    pose proof (proj1 (Forall_forall _ _) Hr1 i Hi1).
    pose proof (proj1 (Forall_forall _ _) Hr2 i Hi2). cbn beta in *. lia.
  - rewrite Forall_forall in Hr1, Hr2. apply Forall_app. split.
    + apply Forall_forall. intros i Hi. specialize (Hr1 i Hi).
      cbn beta in *. lia.
    + apply Forall_forall. intros i Hi. specialize (Hr2 i Hi).
      cbn beta in *. lia.
Qed.

Lemma sends_fresh_keeps (w w' : world) :
  sends_fresh w w' -> ids_fresh w -> ids_fresh w'.
Proof.
  intros (Hc & new & Hs & Hnd & Hr) [Hnd0 Hle]. unfold ids_fresh, sent_ids.
  rewrite Hs, omap_app. split.
  - apply NoDup_app. split_and!; [done | | done].
    intros i Hi1 Hi2.
    pose proof (proj1 (Forall_forall _ _) Hle i Hi1).
    pose proof (proj1 (Forall_forall _ _) Hr i Hi2). cbn beta in *. lia.
  - rewrite Forall_forall in Hle, Hr. apply Forall_app. split.
    + apply Forall_forall. intros i Hi. specialize (Hle i Hi).
      cbn beta in *. lia.
    + apply Forall_forall. intros i Hi. specialize (Hr i Hi).
      cbn beta in *. lia.
Qed.

(** A request that draws an id and sends one frame carrying it. *)
Lemma sends_fresh_request (payload : Z -> json) (w : world) :
  (∀ i, frame_id (payload i) = Some i) ->
  sends_fresh w ((i ← _next_id; send (payload i)) w).1.
Proof.
  intros Hid. rewrite bind_run. unfold sends_fresh. cbn. split; [lia |].
  exists [payload (_ID_COUNTER w + 1)]. cbn. rewrite Hid.
  split_and!; [done | apply NoDup_singleton |].
  constructor; [cbn beta; lia | constructor].
Qed.

Lemma keeps_fresh_bind {A B} (m : M A) (k : A -> M B) :
  keeps_fresh m -> (∀ a, keeps_fresh (k a)) -> keeps_fresh (m ≫= k).
Proof.
  intros Hm Hk w. rewrite bind_run. specialize (Hm w).
  destruct (m w) as [w1 [a| |]]; [| done..].
  eapply sends_fresh_trans; [exact Hm | apply Hk].
Qed.

Lemma keeps_fresh_quiet {A} (m : M A) :
  (∀ w, _ID_COUNTER (m w).1 = _ID_COUNTER w ∧ ws_sent (m w).1 = ws_sent w) ->
  keeps_fresh m.
Proof. intros H w. destruct (H w). by apply sends_fresh_refl. Qed.

Lemma keeps_fresh_for_each {A} (xs : list A) (body : A -> M unit) :
  (∀ x, keeps_fresh (body x)) -> keeps_fresh (for_each xs body).
Proof.
  intros Hbody. induction xs as [|x xs IH].
  - by apply keeps_fresh_quiet.
  - cbn [for_each]. apply keeps_fresh_bind; [apply Hbody | by intros _].
Qed.

Lemma keeps_fresh_subscribe : keeps_fresh subscribe_state_changes.
Proof. intros w. by apply (sends_fresh_request (fun i => JObj _)). Qed.

Lemma keeps_fresh_unsubscribe (id_ : Z) : keeps_fresh (unsubscribe id_).
Proof. intros w. by apply (sends_fresh_request (fun i => JObj _)). Qed.

Lemma keeps_fresh_call_service (service_ : string)
    (data : list (string * json)) : keeps_fresh (call_service service_ data).
Proof.
  intros w. unfold call_service.
  destruct (split_dot service_) as [|d [|s [|x pieces]]];
    try by apply sends_fresh_refl.
  by apply (sends_fresh_request (fun i => JObj _)).
Qed.

Lemma keeps_fresh_update_key_image (key : nat) (button : Button)
    (st : gmap hashable json) (key_pressed : bool) :
  keeps_fresh (update_key_image key button st key_pressed).
Proof.
  apply keeps_fresh_quiet. intros w.
  by destruct (update_key_image_frame key button st key_pressed w)
    as (-> & _ & _ & ->).
Qed.

Lemma keeps_fresh_redraw (buttons : list Button) (key : nat) :
  keeps_fresh (redraw buttons key).
Proof.
  intros w. rewrite redraw_run. destruct (buttons !! key) as [button|].
  - apply keeps_fresh_update_key_image.
  - by apply sends_fresh_refl.
Qed.

Lemma keeps_fresh_update_state (data : json) (buttons : list Button) :
  keeps_fresh (_update_state data buttons).
Proof.
  apply keeps_fresh_quiet. intros w.
  by destruct (update_state_frame data buttons w) as (_ & -> & ->).
Qed.

Lemma keeps_fresh_key_change_callback (buttons : list Button) (key : nat)
    (key_pressed : bool) :
  keeps_fresh (key_change_callback buttons key key_pressed).
Proof.
  unfold key_change_callback.
  apply keeps_fresh_bind; [by apply keeps_fresh_quiet | intros button].
  apply keeps_fresh_bind; [by apply keeps_fresh_quiet | intros st].
  apply keeps_fresh_bind; [apply keeps_fresh_update_key_image | intros _].
  destruct key_pressed, (service button) as [service_|];
    try by apply keeps_fresh_quiet.
  apply keeps_fresh_call_service.
Qed.

Lemma keeps_fresh_recv : keeps_fresh recv.
Proof.
  apply keeps_fresh_quiet. intros w. unfold recv.
  by destruct (ws_inbox w) as [|[data|] rest].
Qed.

Lemma keeps_fresh_get_states_loop (inbox : list inbound) (_id : Z) :
  keeps_fresh (get_states_loop inbox _id).
Proof.
  induction inbox as [|[data|] rest IH]; intros w;
    cbn [get_states_loop]; try by apply sends_fresh_refl.
  eapply sends_fresh_trans;
    [apply (sends_fresh_refl w (with_inbox w rest)); done |].
  generalize (with_inbox w rest). clear w.
  apply keeps_fresh_bind; [by apply keeps_fresh_quiet | intros ty].
  destruct (eq_str ty "result"); [| exact IH].
  apply keeps_fresh_bind; [by apply keeps_fresh_quiet | intros result].
  apply keeps_fresh_bind; [by apply keeps_fresh_quiet | intros dict].
  apply keeps_fresh_bind; [apply keeps_fresh_unsubscribe | intros _].
  by apply keeps_fresh_quiet.
Qed.

Lemma keeps_fresh_get_states : keeps_fresh get_states.
Proof.
  intros w. unfold get_states. rewrite bind_run. cbn [_next_id].
  set (i := _ID_COUNTER (with_counter w (_ID_COUNTER w + 1))).
  eapply sends_fresh_trans;
    [apply (sends_fresh_request
              (fun i => JObj [("type", JStr "get_states"); ("id", JNum i)]) w);
     done |].
  rewrite !bind_run. cbn [_next_id send pending_frames fst snd].
  apply keeps_fresh_get_states_loop.
Qed.

Lemma keeps_fresh_startup (key_count : nat) (buttons : list Button) :
  keeps_fresh (startup key_count buttons).
Proof.
  unfold startup.
  apply keeps_fresh_bind; [apply keeps_fresh_get_states | intros st].
  apply keeps_fresh_bind; [by apply keeps_fresh_quiet | intros _].
  apply keeps_fresh_bind; [| intros _; apply keeps_fresh_subscribe].
  apply keeps_fresh_for_each, keeps_fresh_redraw.
Qed.

Lemma keeps_fresh_perform (buttons : list Button) (a : activity) :
  keeps_fresh (perform buttons a).
Proof.
  destruct a as [key key_pressed|]; cbn [perform].
  - apply keeps_fresh_key_change_callback.
  - apply keeps_fresh_bind; [apply keeps_fresh_recv | intros data].
    apply keeps_fresh_update_state.
Qed.

(** X1.  Every frame the program sends with an id carries one that no
    other sent frame carries, and one the counter has reached.  This holds
    after startup and after any sequence of key events and received
    frames, in any order, whatever they come to. *)
Theorem sent_ids_stay_distinct (key_count : nat) (buttons : list Button)
    (activities : list activity) (w : world) :
  ids_fresh w ->
  ids_fresh (startup key_count buttons w).1
  ∧ ids_fresh (perform_all buttons activities w)
  ∧ ids_fresh (perform_all buttons activities
                 (startup key_count buttons w).1).
Proof.
  intros Hw.
  assert (Hall : ∀ w0, ids_fresh w0 ->
                       ids_fresh (perform_all buttons activities w0)).
  { unfold perform_all.
    induction activities as [|a activities IH]; intros w0 Hw0; [done |].
    cbn [foldl]. apply IH.
    eapply sends_fresh_keeps; [apply keeps_fresh_perform | done]. }
  assert (Hstart : ids_fresh (startup key_count buttons w).1).
  { eapply sends_fresh_keeps; [apply keeps_fresh_startup | done]. }
  split_and!; [done | by apply Hall | by apply Hall].
Qed.

(** ** What a frame can change *)

(** X2.  Whatever frame arrives, [_update_state] either changes nothing at
    all (the frame is ignored, or lacks a field and an exception is raised
    before anything is assigned), or the frame is a state_changed event
    and the only changes are the store entry of the entity it names and
    images drawn on keys bound to that entity.  So the entry of an entity
    the frame does not name is never touched. *)
Theorem update_state_touches_only_the_named_entity (data : json)
    (buttons : list Button) (w : world) :
  string_keyed data ->
  ((_update_state data buttons w).1 = w
   ∨ ∃ eid new_state drawn,
       state_changed data eid new_state
       ∧ (_update_state data buttons w).1 =
           with_deck (with_state w (<[HStr eid := new_state]> (state w)))
                     (deck_images w ++ drawn)
       ∧ drawn.*1 `prefix_of` _keys (JStr eid) buttons)
  ∧ (∀ other, (∀ new_state, ¬ state_changed data other new_state) ->
       state (_update_state data buttons w).1 !! HStr other = state w !! HStr other).
Proof.
  intros Hkeyed.
  assert (Hmain : (_update_state data buttons w).1 = w
   ∨ ∃ eid new_state drawn,
       state_changed data eid new_state
       ∧ (_update_state data buttons w).1 =
           with_deck (with_state w (<[HStr eid := new_state]> (state w)))
                     (deck_images w ++ drawn)
       ∧ drawn.*1 `prefix_of` _keys (JStr eid) buttons).
  { unfold _update_state, lift. rewrite bind_run.
    destruct (getitem data "type") as [ty| |] eqn:Hty; [| by left..].
    destruct (eq_str ty "event") eqn:Hev; [| by left].
    apply eq_str_true in Hev as ->.
    rewrite bind_run.
    destruct (getitem data "event") as [event| |] eqn:Hevent; [| by left..].
    rewrite bind_run.
    destruct (getitem event "event_type") as [event_type| |] eqn:Het;
      [| by left..].
    destruct (eq_str event_type "state_changed") eqn:Hsc; [| by left].
    apply eq_str_true in Hsc as ->.
    rewrite bind_run.
    destruct (getitem event "data") as [event_data| |] eqn:Hd; [| by left..].
    rewrite bind_run.
    destruct (getitem event_data "entity_id") as [v| |] eqn:He; [| by left..].
    rewrite bind_run.
    destruct (getitem event_data "new_state") as [new_state| |] eqn:Hn;
      [| by left..].
    destruct (Hkeyed event event_data v Hevent Hd He) as [eid ->].
    right.
    destruct (redraw_all buttons (_keys (JStr eid) buttons)
                (with_state w (<[HStr eid := new_state]> (state w))))
      as (drawn & Hw & Hpre & _).
    exists eid, new_state, drawn. split_and!; [| exact Hw | exact Hpre].
    by exists event, event_data. }
  split; [exact Hmain |].
  intros other Hother. destruct Hmain as [-> | (eid & ns & drawn & Hsc & -> & _)];
    [done |].
  cbn [state with_deck with_state]. apply lookup_insert_ne.
  intros [= ->]. by apply (Hother ns).
Qed.

(** X22.  A state_changed event is taken whatever value names its entity.
    A value that can be a dict key (a string, null, a number, a boolean)
    is stored under that key, and the keys redrawn are those whose button
    has that very [entity_id]: the buttons bound to the string, the
    buttons bound to no entity when the value is null, and none when it is
    a number or a boolean.  A list or an object cannot be a key: the step
    ends in [TypeError] with nothing stored or drawn. *)
Theorem update_state_any_entity_id (data eid new_state : json)
    (buttons : list Button) (w : world) :
  state_changed_for data eid new_state ->
  match hash_key eid with
  | Ok key =>
      ∃ drawn,
        (_update_state data buttons w).1 =
          with_deck (with_state w (<[key := new_state]> (state w)))
                    (deck_images w ++ drawn)
        ∧ drawn.*1 `prefix_of` _keys eid buttons
        ∧ ((_update_state data buttons w).2 = Ok tt ->
             drawn.*1 = _keys eid buttons)
        ∧ Forall (rendering_of buttons (<[key := new_state]> (state w))) drawn
        ∧ (∀ k, k ∈ _keys eid buttons
             ↔ ∃ button, buttons !! k = Some button
                 ∧ match eid with
                   | JStr s => entity_id button = Some s
                   | JNull => entity_id button = None
                   | _ => False
                   end)
  | Raise e => e = TypeError ∧ _update_state data buttons w = (w, Raise TypeError)
  | Pending => False
  end.
Proof.
  intros (event & event_data & Hty & Hev & Het & Hd & He & Hn).
  unfold _update_state.
  rewrite (bind_lift_Ok _ _ _ _ Hty), eq_str_refl.
  rewrite (bind_lift_Ok _ _ _ _ Hev), (bind_lift_Ok _ _ _ _ Het), eq_str_refl.
  rewrite (bind_lift_Ok _ _ _ _ Hd), (bind_lift_Ok _ _ _ _ He).
  rewrite (bind_lift_Ok _ _ _ _ Hn).
  destruct (hash_key eid) as [key|e|] eqn:Hkey.
  - rewrite (bind_lift_Ok _ _ _ _ eq_refl).
    change ((get_state ≫= _) w)
      with (for_each (_keys eid buttons) (redraw buttons)
              (with_state w (<[key := new_state]> (state w)))).
    destruct (redraw_all buttons (_keys eid buttons)
                (with_state w (<[key := new_state]> (state w))))
      as (drawn & Hw & Hpre & Hall & Hrend).
    exists drawn. split_and!; [done.. |].
    intros k. rewrite elem_of_keys_any. unfold entity_id_eq.
    split; intros (button & Hb & Hsame); exists button; (split; [done |]).
    + destruct (entity_id button) as [s|], eid; try done.
      by apply String.eqb_eq in Hsame as ->.
    + destruct eid; try done; rewrite Hsame; [done | apply String.eqb_refl].
  - destruct eid; try done; by injection Hkey as <-.
  - by destruct eid.
Qed.

(** ** The snapshot: failures, and the shape of the store it builds *)

Lemma get_states_loop_skip (skipped : list json) (tail : list inbound)
    (_id : Z) :
  Forall (fun data => ∃ ty, getitem data "type" = Ok ty
                            ∧ eq_str ty "result" = false) skipped ->
  ∀ w, ws_inbox w = (Frame <$> skipped) ++ tail ->
    get_states_loop ((Frame <$> skipped) ++ tail) _id w =
    get_states_loop tail _id (with_inbox w tail).
Proof.
  induction 1 as [|data skipped (ty & Hd & Hne) _ IH]; intros w Hin.
  - cbn [fmap list_fmap app] in *. rewrite <- Hin. by destruct w.
  - cbn [fmap list_fmap app get_states_loop].
    rewrite (bind_lift_Ok _ _ _ _ Hd), Hne. by rewrite IH.
Qed.

Lemma get_states_run (tail : list inbound) (w : world) :
  ws_inbox w = tail ->
  get_states w =
  get_states_loop tail (_ID_COUNTER w + 1)
    {| _ID_COUNTER := _ID_COUNTER w + 1; state := state w; ws_inbox := tail;
       ws_sent := ws_sent w ++ [JObj [("type", JStr "get_states");
                                      ("id", JNum (_ID_COUNTER w + 1))]];
       deck_images := deck_images w |}.
Proof.
  intros <-. unfold get_states. rewrite bind_run. cbn [_next_id].
  rewrite bind_run. cbn [send]. rewrite bind_run. by unfold pending_frames.
Qed.

(** X3.  A reply to get_states that cannot be read ends [get_states] with
    the exception the reading raises: [KeyError] when the frame has no
    ["result"] (as the hub's error replies have none), [TypeError] when the
    result is not a list of records, and what a record raises that has no
    ["entity_id"] or an unhashable one.  The request has been sent and the
    frames up to the reply are gone, but no unsubscribe_events is sent. *)
Theorem get_states_unreadable_reply (skipped : list json) (reply : json)
    (rest : list inbound) (e : exn) (w : world) :
  Forall (fun data => ∃ ty, getitem data "type" = Ok ty
                            ∧ eq_str ty "result" = false) skipped ->
  getitem reply "type" = Ok (JStr "result") ->
  getitem reply "result" ≫= state_dict = Raise e ->
  ws_inbox w = (Frame <$> skipped) ++ Frame reply :: rest ->
  get_states w =
    ({| _ID_COUNTER := _ID_COUNTER w + 1; state := state w; ws_inbox := rest;
        ws_sent := ws_sent w ++ [JObj [("type", JStr "get_states");
                                       ("id", JNum (_ID_COUNTER w + 1))]];
        deck_images := deck_images w |}, Raise e).
Proof.
  intros Hskip Hty Hres Hin.
  rewrite (get_states_run _ w Hin), (get_states_loop_skip _ _ _ Hskip) by done.
  cbn [get_states_loop]. rewrite (bind_lift_Ok _ _ _ _ Hty), eq_str_refl.
  rewrite bind_run. unfold lift at 1.
  destruct (getitem reply "result") as [result| |]; cbn in Hres;
    [| by injection Hres as -> | done].
  rewrite bind_run. unfold lift at 1. rewrite Hres. done.
Qed.

(** X4.  While no frame of type ["result"] arrives, [get_states] takes
    every frame off the connection and drops it, state_changed events
    included: the store is not touched, nothing but the request is sent,
    and the call is left waiting. *)
Theorem get_states_drops_frames_while_waiting (frames : list json)
    (w : world) :
  Forall (fun data => ∃ ty, getitem data "type" = Ok ty
                            ∧ eq_str ty "result" = false) frames ->
  ws_inbox w = Frame <$> frames ->
  get_states w =
    ({| _ID_COUNTER := _ID_COUNTER w + 1; state := state w; ws_inbox := [];
        ws_sent := ws_sent w ++ [JObj [("type", JStr "get_states");
                                       ("id", JNum (_ID_COUNTER w + 1))]];
        deck_images := deck_images w |}, Pending).
Proof.
  intros Hskip Hin.
  assert (Hin' : ws_inbox w = (Frame <$> frames) ++ []) by by rewrite app_nil_r.
  rewrite (get_states_run _ w Hin'), (get_states_loop_skip _ _ _ Hskip) by done.
  done.
Qed.

Lemma state_dict_of_cons (record : json) (records : list json)
    (acc : gmap hashable json) :
  state_dict_of (record :: records) acc =
  record_key record ≫= fun key => state_dict_of records (<[key := record]> acc).
Proof.
  cbn [state_dict_of]. unfold record_key.
  by destruct (getitem record "entity_id").
Qed.

Lemma state_dict_of_app (earlier later : list json) (acc : gmap hashable json) :
  state_dict_of (earlier ++ later) acc =
  state_dict_of earlier acc ≫= state_dict_of later.
Proof.
  revert acc. induction earlier as [|record earlier IH]; intros acc; [done |].
  cbn [app]. rewrite !state_dict_of_cons.
  destruct (record_key record) as [key| |]; [| done..]. apply IH.
Qed.

(** What the comprehension does to the dict it fills: an entry is one of
    the records, under that record's key, or was there before; every
    record's key has an entry; a key of no record is left alone; and no
    entry is lost. *)
Lemma state_dict_of_entries (records : list json) :
  ∀ acc dict, state_dict_of records acc = Ok dict ->
    (∀ key record, dict !! key = Some record ->
       (record ∈ records ∧ record_key record = Ok key)
       ∨ acc !! key = Some record)
    ∧ (∀ record, record ∈ records ->
         ∃ key, record_key record = Ok key ∧ is_Some (dict !! key))
    ∧ (∀ key, Forall (fun other => record_key other ≠ Ok key) records ->
         dict !! key = acc !! key)
    ∧ (∀ key, is_Some (acc !! key) -> is_Some (dict !! key)).
Proof.
  induction records as [|first records IH]; intros acc dict Hd.
  - cbn in Hd. injection Hd as <-. split_and!; [by right | | done | done].
    intros record Hin. by apply elem_of_nil in Hin.
  - rewrite state_dict_of_cons in Hd.
    destruct (record_key first) as [k| |] eqn:Hk; [| done..].
    cbn [mbind outcome_bind] in Hd.
    destruct (IH _ _ Hd) as (Hfrom & Hall & Hkeep & Hsome).
    split_and!.
    + intros key record Hlook.
      destruct (Hfrom key record Hlook) as [[Hin Hkey]|Hacc].
      * left. split; [by right | done].
      * destruct (decide (k = key)) as [->|Hne].
        -- rewrite lookup_insert_eq in Hacc. injection Hacc as <-.
           left. split; [by left | done].
        -- rewrite lookup_insert_ne in Hacc by done. by right.
    + intros record [->|Hin]%elem_of_cons.
      * exists k. split; [done |]. apply Hsome.
        rewrite lookup_insert_eq. by eexists.
      * by apply Hall.
    + intros key [Hne Hrest]%Forall_cons.
      rewrite (Hkeep key Hrest). apply lookup_insert_ne. by intros ->.
    + intros key Hin. apply Hsome. apply lookup_insert_is_Some'. by right.
Qed.

(** X5.  The store [get_states] builds from a result list files every
    record under the key its own ["entity_id"] hashes to: each entry is one
    of the records, each record has an entry under its key, and of several
    records with one key the last is the one kept.  The key need not be a
    string: a record whose ["entity_id"] is a number or null is filed as
    well. *)
Theorem state_dict_files_records_by_entity (records : list json)
    (dict : gmap hashable json) :
  state_dict (JArr records) = Ok dict ->
  (∀ key record, dict !! key = Some record ->
     record ∈ records ∧ record_key record = Ok key)
  ∧ (∀ record, record ∈ records ->
       ∃ key, record_key record = Ok key ∧ is_Some (dict !! key))
  ∧ (∀ earlier record later key,
       records = earlier ++ record :: later ->
       record_key record = Ok key ->
       Forall (fun other => record_key other ≠ Ok key) later ->
       dict !! key = Some record).
Proof.
  cbn [state_dict]. intros Hd.
  destruct (state_dict_of_entries _ _ _ Hd) as (Hfrom & Hall & _ & _).
  split_and!.
  - intros key record Hlook.
    destruct (Hfrom key record Hlook) as [Hin|Hempty]; [done |].
    by rewrite lookup_empty in Hempty.
  - exact Hall.
  - intros earlier record later key -> Hkey Hlater.
    rewrite state_dict_of_app in Hd.
    destruct (state_dict_of earlier ∅) as [acc| |]; [| done..].
    cbn [mbind outcome_bind] in Hd. rewrite state_dict_of_cons, Hkey in Hd.
    cbn [mbind outcome_bind] in Hd.
    destruct (state_dict_of_entries _ _ _ Hd) as (_ & _ & Hkeep & _).
    rewrite (Hkeep key Hlater). apply lookup_insert_eq.
Qed.

(** ** [main]: from the snapshot into the receive loop *)

Lemma bind_assoc_run {A B C} (m : M A) (k : A -> M B) (k' : B -> M C)
    (w : world) :
  ((m ≫= k) ≫= k') w = (m ≫= fun a => k a ≫= k') w.
Proof. rewrite !bind_run. by destruct (m w) as [w1 [a| |]]. Qed.

Lemma main_body_startup (key_count : nat) (buttons : list Button) (w : world) :
  main_body key_count buttons w =
  (startup key_count buttons;; handle_state_changes buttons) w.
Proof.
  unfold main_body, startup. rewrite bind_assoc_run, !(bind_run get_states).
  destruct (get_states w) as [w1 [st| |]]; [| done..].
  rewrite bind_assoc_run, !(bind_run (put_state st)). cbn [put_state].
  by rewrite bind_assoc_run.
Qed.

Lemma for_each_app {A} (xs ys : list A) (body : A -> M unit) (w : world) :
  for_each (xs ++ ys) body w = (for_each xs body;; for_each ys body) w.
Proof.
  revert w. induction xs as [|x xs IH]; intros w; [done |].
  cbn [app for_each]. rewrite !bind_run.
  destruct (body x w) as [w1 [[]| |]]; [| done..].
  by rewrite IH, bind_run.
Qed.

Lemma receive_loop_quiet (buttons : list Button) (inbox : list inbound)
    (w : world) :
  ws_sent (handle_state_changes_loop inbox buttons w).1 = ws_sent w
  ∧ _ID_COUNTER (handle_state_changes_loop inbox buttons w).1 = _ID_COUNTER w.
Proof.
  revert w. induction inbox as [|[data|] rest IH]; intros w; [done | | done].
  cbn [handle_state_changes_loop]. rewrite bind_run.
  destruct (update_state_frame data buttons (with_inbox w rest))
    as (_ & Hs & Hc).
  destruct (_update_state data buttons (with_inbox w rest))
    as [w1 [[]| |]]; cbn [fst] in *; [| done..].
  destruct (IH w1) as [-> ->]. done.
Qed.

Lemma receive_loop_deck (buttons : list Button) (inbox : list inbound)
    (w : world) :
  deck_images w `prefix_of`
    deck_images (handle_state_changes_loop inbox buttons w).1.
Proof.
  revert w. induction inbox as [|[data|] rest IH]; intros w; [done | | done].
  cbn [handle_state_changes_loop]. rewrite bind_run.
  assert (Hd : deck_images w `prefix_of`
                 deck_images (_update_state data buttons (with_inbox w rest)).1).
  { unfold _update_state, lift. rewrite bind_run.
    destruct (getitem data "type") as [ty| |]; [| done..].
    destruct (eq_str ty "event"); [| done]. rewrite bind_run.
    destruct (getitem data "event") as [event| |]; [| done..].
    rewrite bind_run.
    destruct (getitem event "event_type") as [et| |]; [| done..].
    destruct (eq_str et "state_changed"); [| done]. rewrite bind_run.
    destruct (getitem event "data") as [ed| |]; [| done..]. rewrite bind_run.
    destruct (getitem ed "entity_id") as [eid| |]; [| done..].
    rewrite bind_run.
    destruct (getitem ed "new_state") as [ns| |]; [| done..].
    rewrite bind_run.
    destruct (hash_key eid) as [k| |]; [| done..].
    destruct (redraw_all buttons (_keys eid buttons)
                (with_state (with_inbox w rest)
                   (<[k := ns]> (state (with_inbox w rest)))))
      as (drawn & Hw & _).
    change ((get_state ≫= _) (with_inbox w rest))
      with (for_each (_keys eid buttons) (redraw buttons)
              (with_state (with_inbox w rest)
                 (<[k := ns]> (state (with_inbox w rest))))).
    rewrite Hw. by apply prefix_app_r. }
  destruct (_update_state data buttons (with_inbox w rest))
    as [w1 [[]| |]]; cbn [fst] in *; [| done..].
  etrans; [exact Hd | apply IH].
Qed.

(** The receive loop takes every frame and is left waiting when, at each
    event, the keys bound to its entity can be drawn against the store as
    it then is. *)
Lemma receive_loop_takes_drawable (buttons : list Button) (frames : list json) :
  ∀ (events : list (string * json)) (w : world),
    Forall2 (fun data ev => state_changed data ev.1 ev.2) frames events ->
    ws_inbox w = Frame <$> frames ->
    (∀ n eid new_state, events !! n = Some (eid, new_state) ->
       Forall (renders buttons (apply_events (state w) (take (S n) events)))
         (_keys (JStr eid) buttons)) ->
    ws_inbox (handle_state_changes_loop (Frame <$> frames) buttons w).1 = []
    ∧ (handle_state_changes_loop (Frame <$> frames) buttons w).2 = Pending.
Proof.
  induction frames as [|data frames IH]; intros events w Hall Hin Hdraw;
    [done |].
  destruct events as [|[eid new_state] events]; [by inv Hall |].
  apply Forall2_cons in Hall as [Hsc Hall]. cbn [fst snd] in Hsc.
  cbn [fmap list_fmap handle_state_changes_loop].
  rewrite bind_run, (update_state_changed _ _ _ _ _ Hsc).
  set (w0 := with_state (with_inbox w (Frame <$> frames)) _).
  destruct (for_each_redraw_frame buttons (_keys (JStr eid) buttons) w0)
    as (Hst & Hbox & _).
  assert (Hok : (for_each (_keys (JStr eid) buttons) (redraw buttons) w0).2 = Ok tt).
  { apply redraw_all_Ok. exact (Hdraw 0%nat eid new_state eq_refl). }
  destruct (for_each (_keys (JStr eid) buttons) (redraw buttons) w0)
    as [w1 r] eqn:Hrun. cbn [fst snd] in Hst, Hbox, Hok. subst r.
  apply (IH events); [done | done |].
  intros n e ns Hn. rewrite Hst. exact (Hdraw (S n) e ns Hn).
Qed.

(** X6.  [main], once connected, when the keys it draws can be drawn (each
    key of the deck against the snapshot, and at each event the keys bound
    to its entity against the store as it then is): it sends get_states,
    unsubscribe_events and subscribe_events, in that order and with three
    ids in a row; it draws keys 0 to [key_count - 1] once each against the
    snapshot; the store it ends with is the snapshot, which replaces
    whatever was there, overlaid with the events that followed in arrival
    order; and it is left waiting for the next frame. *)
Theorem main_body_snapshot_then_events (key_count : nat)
    (buttons : list Button) (skipped : list json) (reply : json)
    (records : list json) (ids : list string) (frames : list json)
    (events : list (string * json)) (w : world) :
  Forall (fun data => ∃ ty, getitem data "type" = Ok ty
                            ∧ eq_str ty "result" = false) skipped ->
  getitem reply "type" = Ok (JStr "result") ->
  getitem reply "result" = Ok (JArr records) ->
  Forall2 (fun record e => getitem record "entity_id" = Ok (JStr e))
    records ids ->
  Forall2 (fun data ev => state_changed data ev.1 ev.2) frames events ->
  ws_inbox w = (Frame <$> skipped) ++ Frame reply :: (Frame <$> frames) ->
  (∀ key, (key < key_count)%nat ->
     renders buttons (apply_events ∅ (zip ids records)) key) ->
  (∀ n eid new_state, events !! n = Some (eid, new_state) ->
     ∀ key, key ∈ _keys (JStr eid) buttons ->
       renders buttons
         (apply_events (apply_events ∅ (zip ids records)) (take (S n) events))
         key) ->
  (main_body key_count buttons w).2 = Pending
  ∧ state (main_body key_count buttons w).1 =
      apply_events (apply_events ∅ (zip ids records)) events
  ∧ ws_inbox (main_body key_count buttons w).1 = []
  ∧ _ID_COUNTER (main_body key_count buttons w).1 = _ID_COUNTER w + 3
  ∧ ws_sent (main_body key_count buttons w).1 =
      ws_sent w ++
      [JObj [("type", JStr "get_states"); ("id", JNum (_ID_COUNTER w + 1))];
       JObj [("id", JNum (_ID_COUNTER w + 2));
             ("type", JStr "unsubscribe_events");
             ("subscription", JNum (_ID_COUNTER w + 1))];
       JObj [("type", JStr "subscribe_events");
             ("event_type", JStr "state_changed");
             ("id", JNum (_ID_COUNTER w + 3))]]
  ∧ ∃ first,
      deck_images w ++ first `prefix_of`
        deck_images (main_body key_count buttons w).1
      ∧ first.*1 = seq 0 key_count
      ∧ Forall (rendering_of buttons (apply_events ∅ (zip ids records))) first.
Proof.
  intros Hskip Hty Hres Hrec Hev Hin Hdraw Hdraw'.
  unfold main_body. rewrite bind_run.
  rewrite (get_states_run _ w Hin), (get_states_loop_skip _ _ _ Hskip) by done.
  assert (Hsd : state_dict (JArr records) = Ok (apply_events ∅ (zip ids records)))
    by (cbn [state_dict]; by apply state_dict_of_records).
  rewrite (get_states_loop_first_result [] reply (JArr records)
             (apply_events ∅ (zip ids records)) (Frame <$> frames)
             (_ID_COUNTER w + 1) (Forall_nil_2 _) Hty Hres Hsd
           : ∀ w0, get_states_loop (Frame reply :: (Frame <$> frames)) _ w0 = _).
  cbn [_ID_COUNTER state ws_sent deck_images with_inbox].
  rewrite bind_run. cbn [put_state with_state _ID_COUNTER state ws_inbox
                           ws_sent deck_images].
  set (snapshot := apply_events ∅ (zip ids records)) in *.
  set (w1 := with_state _ snapshot).
  rewrite bind_run.
  destruct (redraw_all buttons (seq 0 key_count) w1)
    as (first & Hw2 & _ & Hfirst & Hrend).
  assert (Hok : (for_each (seq 0 key_count) (redraw buttons) w1).2 = Ok tt).
  { apply redraw_all_Ok, Forall_forall. intros key Hkey. apply Hdraw.
    apply elem_of_seq in Hkey. lia. }
  specialize (Hfirst Hok).
  destruct (for_each (seq 0 key_count) (redraw buttons) w1) as [w2 r] eqn:Hrun.
  cbn [fst snd] in Hw2, Hok. subst r w2.
  rewrite bind_run.
  destruct (subscribe_state_changes (with_deck w1 (deck_images w1 ++ first)))
    as [w3 r3] eqn:Hsub.
  assert (Hw3 : r3 = Ok tt
                ∧ ws_inbox w3 = Frame <$> frames
                ∧ state w3 = snapshot
                ∧ _ID_COUNTER w3 = _ID_COUNTER w + 1 + 1 + 1
                ∧ deck_images w3 = deck_images w ++ first
                ∧ ws_sent w3 =
                    ((ws_sent w ++ [JObj [("type", JStr "get_states");
                                          ("id", JNum (_ID_COUNTER w + 1))]]) ++
                     [JObj [("id", JNum (_ID_COUNTER w + 1 + 1));
                            ("type", JStr "unsubscribe_events");
                            ("subscription", JNum (_ID_COUNTER w + 1))]]) ++
                    [JObj [("type", JStr "subscribe_events");
                           ("event_type", JStr "state_changed");
                           ("id", JNum (_ID_COUNTER w + 1 + 1 + 1))]]).
  { unfold subscribe_state_changes in Hsub. rewrite bind_run in Hsub.
    by injection Hsub as <- <-. }
  clear Hsub. destruct Hw3 as (-> & Hin3 & Hst3 & Hc3 & Hd3 & Hs3).
  unfold handle_state_changes. rewrite bind_run. unfold pending_frames.
  rewrite Hin3.
  destruct (receive_loop_store buttons frames events w3 Hev Hin3)
    as (k & Hk & Hbox & Hst & _).
  destruct (receive_loop_takes_drawable buttons frames events w3 Hev Hin3)
    as [Hnil Hpend].
  { intros n eid new_state Hn. rewrite Hst3. apply Forall_forall.
    intros key Hkey. by apply (Hdraw' n eid new_state). }
  destruct (receive_loop_quiet buttons (Frame <$> frames) w3) as [Hs Hc].
  pose proof (receive_loop_deck buttons (Frame <$> frames) w3) as Hdeck.
  rewrite Hnil in Hbox. symmetry in Hbox. apply fmap_nil_inv in Hbox.
  apply (f_equal length) in Hbox. rewrite length_drop in Hbox. cbn in Hbox.
  assert (k = length frames) as -> by lia.
  apply Forall2_length in Hev. rewrite Hev, firstn_all in Hst.
  split_and!; [done | by rewrite Hst, Hst3 | done | rewrite Hc, Hc3; lia | | ].
  - rewrite Hs, Hs3, <- !app_assoc. cbn [app].
    by replace (_ID_COUNTER w + 1 + 1) with (_ID_COUNTER w + 2) by lia;
       replace (_ID_COUNTER w + 2 + 1) with (_ID_COUNTER w + 3) by lia.
  - exists first. rewrite <- Hd3. split_and!; done.
Qed.

(** X7.  A configuration with fewer buttons than the deck has keys ends
    [main] during startup: the keys that have a button are drawn, then
    [buttons[key]] raises [IndexError].  The snapshot has been fetched and
    unsubscribed by then, but no subscribe_events is sent and no frame
    after the snapshot is read. *)
Theorem main_body_too_few_buttons (key_count : nat) (buttons : list Button)
    (skipped : list json) (reply : json) (records : list json)
    (ids : list string) (rest : list inbound) (w : world) :
  Forall (fun data => ∃ ty, getitem data "type" = Ok ty
                            ∧ eq_str ty "result" = false) skipped ->
  getitem reply "type" = Ok (JStr "result") ->
  getitem reply "result" = Ok (JArr records) ->
  Forall2 (fun record e => getitem record "entity_id" = Ok (JStr e))
    records ids ->
  ws_inbox w = (Frame <$> skipped) ++ Frame reply :: rest ->
  (length buttons < key_count)%nat ->
  (∀ key, (key < length buttons)%nat ->
     renders buttons (apply_events ∅ (zip ids records)) key) ->
  ∃ first,
    main_body key_count buttons w =
      ({| _ID_COUNTER := _ID_COUNTER w + 2;
          state := apply_events ∅ (zip ids records);
          ws_inbox := rest;
          ws_sent := ws_sent w ++
            [JObj [("type", JStr "get_states");
                   ("id", JNum (_ID_COUNTER w + 1))];
             JObj [("id", JNum (_ID_COUNTER w + 2));
                   ("type", JStr "unsubscribe_events");
                   ("subscription", JNum (_ID_COUNTER w + 1))]];
          deck_images := deck_images w ++ first |}, Raise IndexError)
    ∧ first.*1 = seq 0 (length buttons).
Proof.
  intros Hskip Hty Hres Hrec Hin Hkc Hdraw.
  unfold main_body. rewrite bind_run.
  rewrite (get_states_run _ w Hin), (get_states_loop_skip _ _ _ Hskip) by done.
  assert (Hsd : state_dict (JArr records) = Ok (apply_events ∅ (zip ids records)))
    by (cbn [state_dict]; by apply state_dict_of_records).
  rewrite (get_states_loop_first_result [] reply (JArr records)
             (apply_events ∅ (zip ids records)) rest
             (_ID_COUNTER w + 1) (Forall_nil_2 _) Hty Hres Hsd
           : ∀ w0, get_states_loop (Frame reply :: rest) _ w0 = _).
  cbn [_ID_COUNTER state ws_sent deck_images with_inbox].
  rewrite bind_run. cbn [put_state].
  set (snapshot := apply_events ∅ (zip ids records)) in *.
  set (w1 := with_state _ snapshot).
  rewrite bind_run.
  replace key_count with (length buttons + (key_count - length buttons))%nat
    by lia.
  rewrite seq_app, for_each_app, bind_run.
  destruct (redraw_all buttons (seq 0 (length buttons)) w1)
    as (first & Hw2 & _ & Hfirst & _).
  assert (Hok : (for_each (seq 0 (length buttons)) (redraw buttons) w1).2
                = Ok tt).
  { apply redraw_all_Ok, Forall_forall. intros key Hkey. apply Hdraw.
    apply elem_of_seq in Hkey. lia. }
  specialize (Hfirst Hok).
  destruct (for_each (seq 0 (length buttons)) (redraw buttons) w1)
    as [w2 r] eqn:Hrun.
  cbn [fst snd] in Hw2, Hok. subst r w2.
  destruct (key_count - length buttons)%nat as [|more] eqn:Hmore; [lia |].
  cbn [seq for_each]. rewrite bind_run, redraw_run.
  rewrite (lookup_ge_None_2 buttons (0 + length buttons)) by lia.
  exists first. split; [| done].
  unfold w1. cbn. rewrite <- app_assoc. cbn.
  by replace (_ID_COUNTER w + 1 + 1) with (_ID_COUNTER w + 2) by lia.
Qed.

(** ** An entity that is removed *)

(** X8.  When the hub reports an entity removed (a state_changed event
    whose [new_state] is null), the entry stays in the store, holding
    null.  If the first key bound to the entity has no colour configured,
    redrawing it subscripts null and raises [TypeError]: nothing is drawn,
    and the receive loop ends there, leaving the frames that follow
    unread. *)
Theorem removed_entity_ends_receive_loop (data : json) (eid : string)
    (buttons : list Button) (key : nat) (button : Button) (label : string)
    (rest : list inbound) (w : world) :
  state_changed data eid JNull ->
  head (_keys (JStr eid) buttons) = Some key ->
  buttons !! key = Some button ->
  text_color button = None ->
  _render_jinja (text button) [("state", JNull)] = Ok label ->
  ws_inbox w = Frame data :: rest ->
  _update_state data buttons w =
    (with_state w (<[HStr eid := JNull]> (state w)), Raise TypeError)
  ∧ handle_state_changes buttons w =
      (with_state (with_inbox w rest) (<[HStr eid := JNull]> (state w)),
       Raise TypeError).
Proof.
  intros Hsc Hhead Hb Hcolor Hlabel Hin.
  assert (Hbound : entity_id button = Some eid).
  { assert (Hk : key ∈ _keys (JStr eid) buttons).
    { destruct (_keys (JStr eid) buttons); [done |]. injection Hhead as ->.
      apply elem_of_cons. by left. }
    apply elem_of_keys in Hk as (b & Hb' & He). by simplify_eq. }
  assert (Hrun : ∀ w0, _update_state data buttons w0 =
            (with_state w0 (<[HStr eid := JNull]> (state w0)), Raise TypeError)).
  { intros w0. rewrite (update_state_changed _ _ _ _ _ Hsc).
    destruct (_keys (JStr eid) buttons) as [|key' keys]; [done |].
    injection Hhead as ->. cbn [for_each].
    rewrite bind_run, redraw_run, Hb, update_key_image_run.
    cbn [state with_state].
    rewrite (update_key_image_args_present button _ false eid JNull Hbound)
      by apply lookup_insert_eq.
    rewrite Hlabel, Hcolor. done. }
  split; [apply Hrun |].
  unfold handle_state_changes. rewrite bind_run. unfold pending_frames.
  rewrite Hin. cbn [handle_state_changes_loop]. rewrite bind_run, Hrun. done.
Qed.

(** ** Key events: when a command is sent, and when it is not *)

(** The pressed rendering is the not-pressed one with the colour replaced:
    it exists exactly when that one does. *)
Lemma update_key_image_args_pressed (button : Button) (st : gmap hashable json) :
  update_key_image_args button st true =
  (fun args => {| label_text := label_text args;
                  arg_text_color := "green";
                  arg_icon_mdi := arg_icon_mdi args;
                  icon_filename := icon_filename args;
                  font_size := font_size args |})
    <$> update_key_image_args button st false.
Proof.
  unfold update_key_image_args.
  by destruct (match st !! entity_key button with
               | Some record => _
               | None => _
               end) as [[[label color] name]| |].
Qed.

(** X9.  A key event changes the frames sent only when all of this holds:
    it is a press, the key has a button, the button has a service, the
    service identifier has exactly one dot, and the key could be redrawn
    first.  Then exactly one frame is added, and it is a call_service
    frame. *)
Theorem key_event_sends_only_on_a_good_press (buttons : list Button)
    (key : nat) (key_pressed : bool) (w : world) :
  ws_sent (key_change_callback buttons key key_pressed w).1 ≠ ws_sent w ->
  key_pressed = true
  ∧ ∃ button service_ frame,
      buttons !! key = Some button
      ∧ service button = Some service_
      ∧ count_dots service_ = 1%nat
      ∧ (update_key_image key button (state w) true w).2 = Ok tt
      ∧ ws_sent (key_change_callback buttons key key_pressed w).1
        = ws_sent w ++ [frame]
      ∧ getitem frame "type" = Ok (JStr "call_service").
Proof.
  intros Hsent.
  destruct (buttons !! key) as [button|] eqn:Hb.
  2: { exfalso. apply Hsent. unfold key_change_callback, index.
       by rewrite Hb. }
  rewrite (key_change_callback_run _ _ _ _ _ Hb) in Hsent |- *.
  destruct (update_key_image_frame key button (state w) key_pressed w)
    as (Hc & _ & _ & Hs).
  destruct (update_key_image key button (state w) key_pressed w)
    as [w1 [[]| |]] eqn:Hup; cbn [fst snd] in *; [| done..].
  destruct key_pressed; [| done]. split; [done |].
  destruct (service button) as [service_|] eqn:Hsvc; [| done].
  destruct (call_service_run service_
              match service_data button, entity_id button with
              | [], Some eid => [("entity_id", JStr eid)]
              | data, _ => data
              end w1) as [Hbad Hgood].
  destruct (decide (count_dots service_ = 1%nat)) as [Hone|Hne].
  2: { exfalso. apply Hsent. by rewrite (Hbad Hne). }
  destruct (Hgood Hone) as (d & s & _ & Hcall).
  eexists button, service_, _. rewrite Hup, Hcall. cbn [fst snd ws_sent with_sent].
  rewrite Hs. split_and!; done.
Qed.

(** X10.  A button that cannot be drawn cannot be used.  If computing the
    rendering parameters of a key raises (a template that fails, a state
    record without ["state"]), a press of that key ends in the same
    exception before anything is drawn or sent; and so it does whenever
    the redraw itself raises. *)
Theorem undrawable_button_sends_nothing (buttons : list Button) (key : nat)
    (button : Button) (e : exn) (w : world) :
  buttons !! key = Some button ->
  update_key_image_args button (state w) false = Raise e
  ∨ (update_key_image key button (state w) true w).2 = Raise e ->
  key_change_callback buttons key true w = (w, Raise e).
Proof.
  intros Hb Hfail. rewrite (key_change_callback_run _ _ _ _ _ Hb).
  rewrite update_key_image_run in Hfail |- *.
  destruct Hfail as [Hargs | Hup].
  - by rewrite update_key_image_args_pressed, Hargs.
  - destruct (update_key_image_args button (state w) true
              ≫= render_key_image) as [img| |]; cbn in Hup; try done.
    by injection Hup as ->.
Qed.

(** ** Service identifiers *)

Lemma split_dot_cons (s : string) : ∃ piece pieces, split_dot s = piece :: pieces.
Proof.
  destruct s as [|c s]; cbn; [by eexists _, _ |].
  destruct (Ascii.eqb c "."); [by eexists _, _ |].
  destruct (split_dot s); by eexists _, _.
Qed.

Lemma split_dot_join (s : string) : join_dot (split_dot s) = s.
Proof.
  induction s as [|c s IH]; [done |]. cbn [split_dot].
  destruct (split_dot_cons s) as (piece & pieces & Hs).
  rewrite Hs in IH |- *.
  destruct (Ascii.eqb c ".") eqn:Hc.
  - apply Ascii.eqb_eq in Hc as ->.
    change (join_dot ("" :: piece :: pieces))
      with ("" +:+ "." +:+ join_dot (piece :: pieces)).
    by rewrite IH.
  - destruct pieces as [|piece' pieces].
    + cbn [join_dot] in IH |- *. by rewrite IH.
    + change (join_dot (String c piece :: piece' :: pieces))
        with (String c (piece +:+ "." +:+ join_dot (piece' :: pieces))).
      change (join_dot (piece :: piece' :: pieces))
        with (piece +:+ "." +:+ join_dot (piece' :: pieces)) in IH.
      by rewrite IH.
Qed.

Lemma split_dot_pieces (s : string) :
  Forall (fun piece => count_dots piece = 0%nat) (split_dot s).
Proof.
  induction s as [|c s IH]; [by repeat constructor |]. cbn [split_dot].
  destruct (Ascii.eqb c ".") eqn:Hc; [by constructor |].
  destruct (split_dot s) as [|piece pieces]; [by repeat constructor; cbn; rewrite Hc |].
  apply Forall_cons in IH as [Hp Hps]. constructor; [| done].
  cbn. by rewrite Hc.
Qed.

Lemma split_dot_once_first (s : string) :
  head (split_dot_once s) = head (split_dot s).
Proof.
  induction s as [|c s IH]; [done |]. cbn [split_dot split_dot_once].
  destruct (Ascii.eqb c "."); [done |].
  destruct (split_dot_once s) as [|p ps], (split_dot s) as [|q qs];
    cbn in IH |- *; by simplify_eq.
Qed.

(** X11.  Splitting a service identifier at its dots loses nothing: the
    pieces joined by dots are the identifier again, no piece contains a
    dot, and there is one piece more than there are dots.  The first piece
    is the domain [Button.domain] returns.  So when [call_service] sends a
    frame, its ["domain"] and ["service"] joined by a dot are the
    configured identifier, and its ["domain"] is the domain the button's
    default icon was chosen by. *)
Theorem split_service_identifier (button : Button) (service_ : string) :
  service button = Some service_ ->
  join_dot (split_dot service_) = service_
  ∧ Forall (fun piece => count_dots piece = 0%nat) (split_dot service_)
  ∧ length (split_dot service_) = S (count_dots service_)
  ∧ domain button = head (split_dot service_)
  ∧ (∀ d s, split_dot service_ = [d; s] ->
       service_ = d +:+ "." +:+ s ∧ domain button = Some d).
Proof.
  intros Hs. unfold domain. rewrite Hs.
  split_and!.
  - apply split_dot_join.
  - apply split_dot_pieces.
  - apply split_dot_length.
  - apply split_dot_once_first.
  - intros d s Hsplit. split.
    + rewrite <- (split_dot_join service_), Hsplit. done.
    + by rewrite split_dot_once_first, Hsplit.
Qed.

End Core.

Arguments _ID_COUNTER {image} w.
Arguments state {image} w.
Arguments ws_inbox {image} w.
Arguments ws_sent {image} w.
Arguments deck_images {image} w.
Arguments initial_world {image}.
Arguments with_inbox {image} w inbox.
Arguments with_state {image} w st.
Arguments get_states {image}.
Arguments spec_get_states {image}.
Arguments call_service {image} service data.
Arguments handle_state_changes {image} _render_jinja render_key_image buttons.
Arguments _update_state {image} _render_jinja render_key_image data buttons.
Arguments key_change_callback {image} _render_jinja render_key_image
  buttons key key_pressed.
Arguments update_key_image {image} _render_jinja render_key_image
  key button st key_pressed.
Arguments main {image} _render_jinja render_key_image net key_count buttons w.

(** ** Concrete runs *)

Lemma sample_event_state_changed (eid value : string) :
  state_changed (Sample.event eid value) eid (Sample.record eid value).
Proof.
  eexists _, _. split_and!; reflexivity.
Qed.

(** A run of the receive loop over three events, two of them naming the
    kitchen light: the store ends with the later one. *)
Lemma state_store_last_write_wins_run :
  let w := with_inbox (@initial_world render_args)
             (Frame <$> [Sample.event "light.kitchen" "on";
                         Sample.event "switch.fan" "on";
                         Sample.event "light.kitchen" "off"]) in
  state (handle_state_changes literal_jinja args_as_image Sample.buttons w).1
    !! HStr "light.kitchen"
  = Some (Sample.record "light.kitchen" "off").
Proof.
  intros w.
  destruct (state_store_last_write_wins render_args literal_jinja args_as_image
              Sample.buttons
              [Sample.event "light.kitchen" "on";
               Sample.event "switch.fan" "on";
               Sample.event "light.kitchen" "off"]
              [("light.kitchen", Sample.record "light.kitchen" "on");
               ("switch.fan", Sample.record "switch.fan" "on");
               ("light.kitchen", Sample.record "light.kitchen" "off")]
              w "light.kitchen") as (_ & Hall & _).
  - repeat constructor; apply sample_event_state_changed.
  - reflexivity.
  - rewrite Hall; [| vm_compute; reflexivity]. vm_compute. reflexivity.
Defined.

(** C3: a result frame carrying another id ends the wait.  The request
    has id 1; the first result frame carries id 7 and is taken as the
    snapshot, the reply carrying id 1 is left on the connection; waiting
    for the reply with the request's own id gives another store. *)
Lemma get_states_takes_foreign_result :
  let w := with_inbox (@initial_world render_args)
             [Frame Sample.auth_ok;
              Frame (Sample.snapshot 7 [Sample.record "light.kitchen" "off"]);
              Frame (Sample.snapshot 1 [Sample.record "light.kitchen" "on"])] in
  (get_states w).2
    = Ok {[ HStr "light.kitchen" := Sample.record "light.kitchen" "off" ]}
  ∧ ws_inbox (get_states w).1
    = [Frame (Sample.snapshot 1 [Sample.record "light.kitchen" "on"])]
  ∧ (spec_get_states w).2
    = Ok {[ HStr "light.kitchen" := Sample.record "light.kitchen" "on" ]}
  ∧ (get_states w).2 ≠ (spec_get_states w).2.
Proof.
  intros w. split_and!; try (vm_compute; reflexivity).
  intros Heq.
  assert (H : (get_states w).2 ≫= (fun d => from_option Ok (Raise TypeError) (d !! HStr "light.kitchen"))
            = (spec_get_states w).2 ≫= (fun d => from_option Ok (Raise TypeError) (d !! HStr "light.kitchen")))
    by (by rewrite Heq).
  vm_compute in H. discriminate H.
Qed.

Lemma get_states_takes_first_result_run :
  let w := with_inbox (@initial_world render_args)
             [Frame Sample.auth_ok;
              Frame (Sample.snapshot 1 [Sample.record "light.kitchen" "off";
                                        Sample.record "switch.fan" "on"]);
              Frame (Sample.event "light.kitchen" "on")] in
  get_states w =
    ({| _ID_COUNTER := 2; state := ∅;
        ws_inbox := [Frame (Sample.event "light.kitchen" "on")];
        ws_sent :=
          [JObj [("type", JStr "get_states"); ("id", JNum 1)];
           JObj [("id", JNum 2); ("type", JStr "unsubscribe_events");
                 ("subscription", JNum 1)]];
        deck_images := [] |},
     Ok (<[HStr "switch.fan" := Sample.record "switch.fan" "on"]>
           (<[HStr "light.kitchen" := Sample.record "light.kitchen" "off"]> ∅))).
Proof.
  intros w.
  apply (get_states_takes_first_result render_args [Sample.auth_ok]
           (Sample.snapshot 1 [Sample.record "light.kitchen" "off";
                               Sample.record "switch.fan" "on"])
           [Sample.record "light.kitchen" "off"; Sample.record "switch.fan" "on"]
           ["light.kitchen"; "switch.fan"]
           [Frame (Sample.event "light.kitchen" "on")] w).
  - repeat constructor. by exists (JStr "auth_ok").
  - reflexivity.
  - reflexivity.
  - repeat constructor.
  - reflexivity.
Defined.

(** One event for the kitchen light, on a deck whose keys 0 and 3 show it:
    exactly those two keys are redrawn, in that order; and an event of
    another kind changes nothing. *)
Lemma update_state_redraws_bound_keys_run :
  (_update_state literal_jinja args_as_image
     (Sample.event "light.kitchen" "on") Sample.buttons initial_world).2 = Ok tt
  ∧ (deck_images (_update_state literal_jinja args_as_image
       (Sample.event "light.kitchen" "on") Sample.buttons initial_world).1).*1
    = [0; 3]%nat
  ∧ _update_state literal_jinja args_as_image
      Sample.service_registered Sample.buttons initial_world
    = (initial_world, Ok tt).
Proof.
  destruct (update_state_redraws_bound_keys render_args literal_jinja
              args_as_image (Sample.event "light.kitchen" "on")
              Sample.buttons initial_world) as [Hsc _].
  destruct (Hsc "light.kitchen" (Sample.record "light.kitchen" "on")
              (sample_event_state_changed _ _))
    as (drawn & Hw & _ & Hkeys & _).
  destruct (update_state_redraws_bound_keys render_args literal_jinja
              args_as_image Sample.service_registered
              Sample.buttons initial_world) as [_ Hother].
  split_and!.
  - vm_compute. reflexivity.
  - rewrite Hw. cbn [deck_images with_deck initial_world app].
    rewrite Hkeys; [| vm_compute; reflexivity]. vm_compute. reflexivity.
  - apply Hother. right. eexists _, _. split_and!; reflexivity.
Defined.

(** A press on the kitchen light's key, which has no service_data: the
    frame carries the implicit entity_id. *)
Lemma press_sends_configured_or_implicit_data_run :
  let w := with_state (@initial_world render_args)
             {[ HStr "light.kitchen" := Sample.record "light.kitchen" "on" ]} in
  ∃ data,
    ws_sent (key_change_callback literal_jinja args_as_image Sample.buttons 0
               true w).1 =
      [JObj [("id", JNum 1); ("type", JStr "call_service");
             ("domain", JStr "light"); ("service", JStr "toggle");
             ("service_data", JObj data)]]
    ∧ data = [("entity_id", JStr "light.kitchen")].
Proof.
  intros w.
  destruct (press_sends_configured_or_implicit_data render_args literal_jinja
              args_as_image Sample.buttons 0 Sample.lamp "light.toggle"
              "light" "toggle"
              {| label_text := "Kitchen"; arg_text_color := "green";
                 arg_icon_mdi := Some "lightbulb"; icon_filename := None;
                 font_size := 12 |}
              {| label_text := "Kitchen"; arg_text_color := "green";
                 arg_icon_mdi := Some "lightbulb"; icon_filename := None;
                 font_size := 12 |}
              w eq_refl eq_refl eq_refl eq_refl eq_refl)
    as (data & Hrun & _ & Himplicit & _).
  exists data. rewrite Hrun. split; [reflexivity |].
  by apply (Himplicit "light.kitchen").
Defined.

(** The kitchen light is on and the button configures no colour: the
    text is drawn in the highlight colour. *)
Lemma text_color_resolution_run :
  ∃ args,
    update_key_image_args literal_jinja Sample.lamp
      {[ HStr "light.kitchen" := Sample.record "light.kitchen" "on" ]} false
    = Ok args
    ∧ arg_text_color args = "orangered".
Proof.
  destruct (text_color_resolution literal_jinja Sample.lamp
              {[ HStr "light.kitchen" := Sample.record "light.kitchen" "on" ]}
              "light.kitchen" (Sample.record "light.kitchen" "on") "Kitchen")
    as [_ Hstate]; try reflexivity.
  destruct (Hstate (JStr "on")) as (args & Hargs & Hon & _); try reflexivity.
  exists args. split; [done |]. by apply Hon.
Defined.

(** The kitchen light's button has no icon fields and its action is in the
    light domain: it is drawn with the light default. *)
Lemma domain_default_icon_run :
  ∃ args,
    update_key_image_args literal_jinja Sample.lamp
      {[ HStr "light.kitchen" := Sample.record "light.kitchen" "on" ]} false
    = Ok args
    ∧ arg_icon_mdi args = Some "lightbulb"
    ∧ icon_filename args = None.
Proof.
  exists {| label_text := "Kitchen"; arg_text_color := "orangered";
            arg_icon_mdi := Some "lightbulb"; icon_filename := None;
            font_size := 12 |}.
  split; [reflexivity |].
  destruct (domain_default_icon literal_jinja Sample.lamp
              {[ HStr "light.kitchen" := Sample.record "light.kitchen" "on" ]}
              false "light.kitchen" (Sample.record "light.kitchen" "on")
              {| label_text := "Kitchen"; arg_text_color := "orangered";
                 arg_icon_mdi := Some "lightbulb"; icon_filename := None;
                 font_size := 12 |}
              ) as (_ & _ & Hdefault); [reflexivity.. |].
  destruct (Hdefault eq_refl eq_refl) as (Hpath & _ & Hlight & _).
  split; [by apply Hlight | exact Hpath].
Defined.

(** A press on a button whose service has no dot: the handler ends in
    [ValueError] with nothing sent. *)
Lemma call_service_needs_exactly_one_dot_run :
  (key_change_callback literal_jinja args_as_image [Sample.broken] 0 true
     initial_world).2 = Raise ValueError
  ∧ ws_sent (key_change_callback literal_jinja args_as_image [Sample.broken] 0
               true initial_world).1 = []
  ∧ call_service "homeassistant" [] (@initial_world render_args)
    = (initial_world, Raise ValueError).
Proof.
  destruct (call_service_needs_exactly_one_dot render_args literal_jinja
              args_as_image "homeassistant" [] initial_world)
    as [_ Hbad].
  destruct Hbad as (Hraise & _ & Hpress); [vm_compute; lia |].
  destruct (Hpress [Sample.broken] 0%nat Sample.broken eq_refl eq_refl)
    as (_ & Hsent & _ & Hvalue).
  split_and!; [apply Hvalue; reflexivity | exact Hsent | exact Hraise].
Defined.

(** ** The connection manager under resets *)

(** Resets while the connection is being set up are retried: after [n]
    refused attempts the generator has slept 5 seconds [n] times and
    yields the first transport on which the handshake goes through. *)
Lemma setup_ws_retries_while_connecting (n : nat) (auth_response : json)
    (frames : list inbound) (rest : list attempt) (log : list ws_event) :
  setup_ws (replicate n (Refused ConnectionResetError)
            ++ Established (Ok tt) (Frame auth_response :: frames) :: rest) log
  = (log ++ mjoin (replicate n [Connect; Sleep 5])
         ++ [Connect; SendAuth; RecvAuth; Yield],
     GenYield frames rest).
Proof.
  revert log. induction n as [|n IH]; intros log; [done |].
  cbn [replicate app setup_ws except_ConnectionResetError].
  rewrite IH. cbn [mjoin list_join]. by rewrite <- !app_assoc.
Qed.

(** A run of [async with setup_ws(...)] never ends with a value: the
    generator has no way out of its loop but an exception. *)
Lemma async_with_setup_ws_never_returns {W A : Type}
    (body : list inbound -> W -> W * outcome A) (net : list attempt) (w : W)
    (a : A) :
  (async_with_setup_ws body net w).2 ≠ Ok a.
Proof.
  unfold async_with_setup_ws.
  destruct (setup_ws net []) as [log [frames rest| |]]; [| done..].
  destruct (body frames w) as [w' [b|e|]]; [| | done].
  - by destruct (setup_ws_anext rest log) as [log' []].
  - by destruct (setup_ws_athrow e rest log) as [log' []].
Qed.

(** A reset raised inside the body, once the connection has been handed
    over: the generator closes the transport, sleeps 5 seconds, connects
    and authenticates again, and yields a second time, which the context
    manager answers with a [RuntimeError].  The body is not resumed. *)
Lemma reset_in_body_ends_the_with {W A : Type}
    (body : list inbound -> W -> W * outcome A) (net rest rest' : list attempt)
    (frames frames' : list inbound) (log log' : list ws_event) (w w' : W) :
  setup_ws net [] = (log, GenYield frames rest) ->
  body frames w = (w', Raise ConnectionResetError) ->
  setup_ws rest (log ++ [Close; Sleep 5]) = (log', GenYield frames' rest') ->
  async_with_setup_ws body net w =
    (log', w', Raise (RuntimeError "generator didn't stop after athrow()")).
Proof.
  intros Henter Hbody Hretry. unfold async_with_setup_ws.
  rewrite Henter, Hbody. unfold setup_ws_athrow, except_ConnectionResetError.
  rewrite <- app_assoc. cbn [app]. by rewrite Hretry.
Qed.

(** C2, at a connection reset after startup.  The first connection
    delivers the snapshot and one event and is then reset; the hub accepts
    the next connection at once.  The channel closes the transport, waits
    5 seconds, connects and authenticates again, but [main] then ends
    in a [RuntimeError]: the receive loop is never resumed, the event the
    second connection holds is never read, and no subscription is sent on
    the second connection. *)
Theorem reset_after_startup_ends_main :
  main literal_jinja args_as_image
    [Established (Ok tt)
       [Frame Sample.auth_ok;
        Frame (Sample.snapshot 1 [Sample.record "light.kitchen" "off"]);
        Frame (Sample.event "light.kitchen" "on");
        Reset];
     Established (Ok tt)
       [Frame Sample.auth_ok; Frame (Sample.event "light.kitchen" "off")]]
    1 [Sample.lamp] initial_world
  = ([Connect; SendAuth; RecvAuth; Yield; Close; Sleep 5;
      Connect; SendAuth; RecvAuth; Yield],
     {| _ID_COUNTER := 3;
        state := {[ HStr "light.kitchen" := Sample.record "light.kitchen" "on" ]};
        ws_inbox := [];
        ws_sent :=
          [JObj [("type", JStr "get_states"); ("id", JNum 1)];
           JObj [("id", JNum 2); ("type", JStr "unsubscribe_events");
                 ("subscription", JNum 1)];
           JObj [("type", JStr "subscribe_events");
                 ("event_type", JStr "state_changed"); ("id", JNum 3)]];
        deck_images :=
          [(0%nat, {| label_text := "Kitchen"; arg_text_color := "white";
                      arg_icon_mdi := Some "lightbulb"; icon_filename := None;
                      font_size := 12 |});
           (0%nat, {| label_text := "Kitchen"; arg_text_color := "orangered";
                      arg_icon_mdi := Some "lightbulb"; icon_filename := None;
                      font_size := 12 |})] |},
     Raise (RuntimeError "generator didn't stop after athrow()")).
Proof. vm_compute. reflexivity. Qed.

(** ** Presses of the other sample buttons *)

(** Configured parameters are sent as they are, and a button with neither
    parameters nor an entity sends none. *)
Lemma press_of_scene_and_all_lights_on :
  ws_sent (key_change_callback literal_jinja args_as_image Sample.buttons 2
             true initial_world).1 =
    [JObj [("id", JNum 1); ("type", JStr "call_service");
           ("domain", JStr "scene"); ("service", JStr "turn_on");
           ("service_data", JObj [("entity_id", JStr "scene.movie")])]]
  ∧ ws_sent (key_change_callback literal_jinja args_as_image
               [Sample.all_lights_on] 0 true initial_world).1 =
    [JObj [("id", JNum 1); ("type", JStr "call_service");
           ("domain", JStr "light"); ("service", JStr "turn_on");
           ("service_data", JObj [])]].
Proof. split; vm_compute; reflexivity. Qed.

(** C4, a defect of the code.  The default icon is to follow the domain of
    the entity, and [Button.domain] is documented to return that domain,
    but it is computed from [service].  The kitchen light and the fan are
    in the store and their buttons have no icon fields; the entities'
    domains are ["light"] and ["switch"], whose defaults are the light
    bulb and the power socket.  Shown by a button that calls nothing, the
    light has no domain and gets no icon; switched through a service of
    another domain, the fan has the domain ["homeassistant"] and gets none
    either. *)
Lemma entity_domain_gets_no_default_icon :
  let st : gmap hashable json :=
    {[ HStr "light.kitchen" := Sample.record "light.kitchen" "on";
       HStr "switch.fan" := Sample.record "switch.fan" "off" ]} in
  (entity_domain Sample.display_only = Some "light"
   ∧ entity_domain Sample.display_only ≫= (DEFAULT_MDI_ICONS !!.)
     = Some "lightbulb"
   ∧ domain Sample.display_only = None
   ∧ icon_mdi Sample.display_only = None ∧ icon Sample.display_only = None
   ∧ update_key_image_args literal_jinja Sample.display_only st false =
       Ok {| label_text := "Kitchen"; arg_text_color := "orangered";
             arg_icon_mdi := None; icon_filename := None; font_size := 12 |})
  ∧ (entity_domain Sample.generic_toggle = Some "switch"
     ∧ entity_domain Sample.generic_toggle ≫= (DEFAULT_MDI_ICONS !!.)
       = Some "power-socket-eu"
     ∧ domain Sample.generic_toggle = Some "homeassistant"
     ∧ icon_mdi Sample.generic_toggle = None
     ∧ icon Sample.generic_toggle = None
     ∧ update_key_image_args literal_jinja Sample.generic_toggle st false =
         Ok {| label_text := "Fan"; arg_text_color := "white";
               arg_icon_mdi := None; icon_filename := None; font_size := 12 |}).
Proof. split_and!; vm_compute; reflexivity. Qed.

(** * The connection manager, whatever the network does *)

(** One attempt that ends in a reset: a connect, a sleep of 5 seconds, and
    the loop goes round with what the network has left. *)
Lemma setup_ws_reset_attempt (a : attempt) (rest : list attempt)
    (log : list ws_event) :
  is_reset a ->
  ∃ events, setup_ws (a :: rest) log = setup_ws rest (log ++ events)
    ∧ sleeps events = [5] ∧ connects events = 1%nat ∧ yields events = 0%nat.
Proof.
  intros Ha. destruct a as [e|[[]|e|] frames]; cbn in Ha; try done.
  - subst e. exists [Connect; Sleep 5]. cbn. by rewrite <- app_assoc.
  - destruct frames as [|[data|] frames]; [done.. |].
    exists [Connect; SendAuth; RecvAuth; Close; Sleep 5]. cbn.
    by rewrite <- app_assoc.
  - subst e. exists [Connect; SendAuth; Close; Sleep 5]. cbn.
    by rewrite <- app_assoc.
Qed.

Lemma sleeps_app (l1 l2 : list ws_event) :
  sleeps (l1 ++ l2) = sleeps l1 ++ sleeps l2.
Proof. apply omap_app. Qed.

Lemma connects_app (l1 l2 : list ws_event) :
  connects (l1 ++ l2) = (connects l1 + connects l2)%nat.
Proof. unfold connects. by rewrite omap_app, length_app. Qed.

Lemma yields_app (l1 l2 : list ws_event) :
  yields (l1 ++ l2) = (yields l1 + yields l2)%nat.
Proof. unfold yields. by rewrite omap_app, length_app. Qed.

(** Any number of attempts that end in a reset: as many sleeps and
    connects, no yield, and the generator is at the next attempt. *)
Lemma setup_ws_reset_attempts (failed rest : list attempt)
    (log : list ws_event) :
  Forall is_reset failed ->
  ∃ events, setup_ws (failed ++ rest) log = setup_ws rest (log ++ events)
    ∧ sleeps events = replicate (length failed) 5
    ∧ connects events = length failed ∧ yields events = 0%nat.
Proof.
  intros Hfailed. revert log.
  induction Hfailed as [|a failed Ha _ IH]; intros log.
  - exists []. by rewrite app_nil_r.
  - destruct (setup_ws_reset_attempt a (failed ++ rest) log Ha)
      as (ev1 & Hrun1 & Hs1 & Hc1 & Hy1).
    destruct (IH (log ++ ev1)) as (ev2 & Hrun2 & Hs2 & Hc2 & Hy2).
    exists (ev1 ++ ev2). cbn [app]. rewrite Hrun1, Hrun2, app_assoc.
    rewrite sleeps_app, connects_app, yields_app, Hs1, Hs2, Hc1, Hc2, Hy1, Hy2.
    done.
Qed.

(** The generator lets no reset out: what it raises is another
    exception. *)
Lemma setup_ws_raises_no_reset (net : list attempt) (log log' : list ws_event) :
  setup_ws net log ≠ (log', GenRaise ConnectionResetError).
Proof.
  revert log. induction net as [|a net IH]; intros log; [done |].
  destruct a as [e|[[]|e|] frames]; cbn.
  - destruct e; cbn; first [done | apply IH].
  - destruct frames as [|[data|] frames]; cbn; first [done | apply IH].
  - destruct e; cbn; first [done | apply IH].
  - done.
Qed.

(** X12.  [setup_ws] retries every connection reset, wherever in the
    handshake it strikes (at the connect, while the auth message is sent,
    while its reply is awaited) and however many times in a row: it sleeps
    5 seconds after each failed attempt, connects once more than it
    failed, and yields once, the first transport on which the handshake
    goes through, with the frames after the auth reply still to come. *)
Theorem setup_ws_retries_every_reset (failed : list attempt)
    (auth_response : json) (frames : list inbound) (rest : list attempt)
    (log : list ws_event) :
  Forall is_reset failed ->
  ∃ events,
    setup_ws (failed ++ Established (Ok tt) (Frame auth_response :: frames)
                        :: rest) log
    = (log ++ events, GenYield frames rest)
    ∧ sleeps events = replicate (length failed) 5
    ∧ connects events = S (length failed)
    ∧ yields events = 1%nat
    ∧ last events = Some Yield.
Proof.
  intros Hfailed.
  destruct (setup_ws_reset_attempts failed
              (Established (Ok tt) (Frame auth_response :: frames) :: rest)
              log Hfailed) as (events & Hrun & Hs & Hc & Hy).
  exists (events ++ [Connect; SendAuth; RecvAuth; Yield]).
  rewrite Hrun. cbn [setup_ws]. rewrite <- app_assoc.
  rewrite sleeps_app, connects_app, yields_app, Hs, Hc, Hy.
  split_and!; [done | by rewrite app_nil_r | cbn; lia | done |].
  by rewrite last_app.
Qed.

(** X13.  An exception other than a reset while the connection is set up
    (a refused connect, a failed send of the auth message) is not retried:
    after the resets before it, each slept over, [main] ends with that
    exception, without a sleep for it, with nothing yielded, so that the
    body never ran: nothing was sent, drawn or stored, and what the network
    had left was not tried. *)
Theorem other_exception_while_connecting_ends_main {image : Type}
    (_render_jinja : string -> list (string * json) -> outcome string)
    (render_key_image : render_args -> outcome image)
    (failed : list attempt) (a : attempt) (e : exn) (rest : list attempt)
    (key_count : nat) (buttons : list Button) (w : world image) :
  Forall is_reset failed ->
  fails_with a e ->
  ∃ log,
    main _render_jinja render_key_image (failed ++ a :: rest) key_count
      buttons w = (log, w, Raise e)
    ∧ sleeps log = replicate (length failed) 5
    ∧ connects log = S (length failed)
    ∧ yields log = 0%nat.
Proof.
  intros Hfailed [Hne Ha].
  destruct (setup_ws_reset_attempts failed (a :: rest) [] Hfailed)
    as (events & Hrun & Hs & Hc & Hy).
  unfold main, async_with_setup_ws. rewrite Hrun. cbn [app].
  destruct a as [e'|[[]|e'|] frames]; cbn in Ha; try done; subst e'.
  - exists (events ++ [Connect]). cbn [setup_ws].
    replace (except_ConnectionResetError e (events ++ [Connect])
               (setup_ws rest))
      with (events ++ [Connect], GenRaise e) by (by destruct e).
    rewrite sleeps_app, connects_app, yields_app, Hs, Hc, Hy.
    split_and!; [done | by rewrite app_nil_r | cbn; lia | done].
  - exists (events ++ [Connect; SendAuth; Close]). cbn [setup_ws].
    replace (except_ConnectionResetError e
               (events ++ [Connect; SendAuth; Close]) (setup_ws rest))
      with (events ++ [Connect; SendAuth; Close], GenRaise e)
      by (by destruct e).
    rewrite sleeps_app, connects_app, yields_app, Hs, Hc, Hy.
    split_and!; [done | by rewrite app_nil_r | cbn; lia | done].
Qed.

(** X14.  Whatever the network does and whatever the body comes to,
    [main] never returns and never ends in a [ConnectionResetError]: a
    reset is caught wherever it is raised, and the generator has no way
    out of its loop but another exception. *)
Theorem main_never_returns_nor_resets {image : Type}
    (_render_jinja : string -> list (string * json) -> outcome string)
    (render_key_image : render_args -> outcome image)
    (net : list attempt) (key_count : nat) (buttons : list Button)
    (w : world image) :
  (main _render_jinja render_key_image net key_count buttons w).2 ≠ Ok tt
  ∧ (main _render_jinja render_key_image net key_count buttons w).2
    ≠ Raise ConnectionResetError.
Proof.
  unfold main, async_with_setup_ws.
  destruct (setup_ws net []) as [log [frames rest|e|]] eqn:Hgen; cbn.
  - destruct (main_body _ _ _ _ _ _) as [w' [[]|e|]]; cbn.
    + unfold setup_ws_anext.
      destruct (setup_ws rest (log ++ [Close])) as [log' [| e' |]] eqn:Hnext;
        cbn; split; try done.
      intros [= ->]. by apply setup_ws_raises_no_reset in Hnext.
    + unfold setup_ws_athrow.
      destruct (except_ConnectionResetError e (log ++ [Close])
                  (setup_ws rest)) as [log' [| e' |]] eqn:Hnext;
        cbn; split; try done.
      intros [= ->]. destruct e; cbn in Hnext; try done.
      by apply setup_ws_raises_no_reset in Hnext.
    + done.
  - split; [done |]. intros [= ->].
    by apply setup_ws_raises_no_reset in Hgen.
  - done.
Qed.

(** * Finding the deck *)

Lemma get_deck_from_first_visual (i : nat) (streamdecks : list device) :
  (get_deck_from i streamdecks
     = ([], Raise (RuntimeError "No Stream Deck found"))
   ∧ Forall (fun deck => is_visual deck = false) streamdecks)
  ∨ ∃ k deck,
      streamdecks !! k = Some deck
      ∧ is_visual deck = true
      ∧ Forall (fun deck => is_visual deck = false) (take k streamdecks)
      ∧ get_deck_from i streamdecks
        = (OpenCall (i + k)
             :: match open_ deck with
                | Ok _ => [ResetCall (i + k)]
                | _ => []
                end,
           open_ deck;; reset_ deck;; Ok deck).
Proof.
  revert i. induction streamdecks as [|deck rest IH]; intros i.
  - left. by split.
  - destruct (is_visual deck) eqn:Hvisual.
    + right. exists 0%nat, deck. rewrite Nat.add_0_r. cbn. rewrite Hvisual.
      split_and!; [done.. |].
      by destruct (open_ deck) as [[]| |], (reset_ deck) as [[]| |].
    + destruct (IH (S i)) as [[Hrun Hnone]|(k & found & Hk & Hv & Hbefore & Hrun)].
      * left. cbn. rewrite Hvisual. split; [done | by constructor].
      * right. exists (S k), found. cbn. rewrite Hvisual.
        replace (i + S k)%nat with (S i + k)%nat by lia.
        split_and!; [done.. | by constructor | done].
Qed.

(** X15.  [get_deck] takes the first listed device that has a screen: it
    opens that one and, if the open went through, resets it, and calls
    nothing on any other device.  What the open or the reset raises is what
    [get_deck] raises: a later device with a screen is not tried instead.
    Without any device with a screen, and only then, no call is made and
    the [RuntimeError] "No Stream Deck found" is raised. *)
Theorem get_deck_takes_the_first_visual_device (streamdecks : list device)
    (calls : list device_call) (r : outcome device) :
  get_deck streamdecks = (calls, r) ->
  (calls = [] ∧ r = Raise (RuntimeError "No Stream Deck found")
   ∧ ∀ deck, deck ∈ streamdecks -> is_visual deck = false)
  ∨ ∃ k deck,
      streamdecks !! k = Some deck
      ∧ is_visual deck = true
      ∧ (∀ j earlier, (j < k)%nat -> streamdecks !! j = Some earlier ->
           is_visual earlier = false)
      ∧ calls = OpenCall k :: match open_ deck with
                              | Ok _ => [ResetCall k]
                              | _ => []
                              end
      ∧ r = (open_ deck;; reset_ deck;; Ok deck)
      ∧ (∀ found, r = Ok found ->
           found = deck ∧ calls = [OpenCall k; ResetCall k]).
Proof.
  unfold get_deck. intros Hrun.
  destruct (get_deck_from_first_visual 0 streamdecks)
    as [[Hnone Hall]|(k & deck & Hk & Hv & Hbefore & Hfound)].
  - left. rewrite Hnone in Hrun. injection Hrun as <- <-.
    split_and!; [done.. |]. by apply Forall_forall.
  - right. exists k, deck. rewrite Hfound in Hrun. cbn [Nat.add] in Hrun.
    injection Hrun as <- <-. split_and!; [done.. | | done | done |].
    + intros j earlier Hj Hlook.
      apply (Forall_lookup_1 _ _ j earlier Hbefore).
      by rewrite lookup_take_lt.
    + intros found.
      by destruct (open_ deck) as [[]| |], (reset_ deck) as [[]| |];
        cbn; intros [= <-].
Qed.

(** * Icon downloads *)

Lemma length_append (a b : string) :
  String.length (a +:+ b) = (String.length a + String.length b)%nat.
Proof. induction a as [|c a IH]; simpl; [done | by rewrite IH]. Qed.

Lemma append_suffix_inj (a b suffix : string) :
  a +:+ suffix = b +:+ suffix -> a = b.
Proof.
  revert b. induction a as [|c a IH]; intros [|c' b] Heq; simpl in Heq.
  - done.
  - apply (f_equal String.length) in Heq.
    rewrite !length_append in Heq. simpl in Heq. lia.
  - apply (f_equal String.length) in Heq.
    rewrite !length_append in Heq. simpl in Heq. lia.
  - injection Heq as -> Heq. f_equal. by apply IH.
Qed.

(** X16.  Different icon names are fetched from different urls, so the
    download cache, which is keyed by the url, never answers one icon with
    the content of another. *)
Theorem _mdi_url_distinct (mdi mdi' : string) :
  mdi ≠ mdi' -> _mdi_url mdi ≠ _mdi_url mdi'.
Proof.
  intros Hne Heq. apply Hne. unfold _mdi_url in Heq.
  apply String.app_inj in Heq. by apply append_suffix_inj in Heq.
Qed.

(** ** The download cache *)

Lemma cache_lookup_front (url content : string)
    (front back : list (string * string)) :
  url ∉ (front.*1) ->
  cache_lookup url (front ++ (url, content) :: back) = Some content.
Proof.
  induction front as [|[u c] front IH]; cbn; intros Hnot.
  - by rewrite String.eqb_refl.
  - apply not_elem_of_cons in Hnot as [Hne Hnot].
    destruct (String.eqb_spec u url); [congruence | auto].
Qed.

Lemma cache_lookup_None (url : string) (entries : list (string * string)) :
  cache_lookup url entries = None -> url ∉ (entries.*1).
Proof.
  induction entries as [|[u c] entries IH]; cbn; intros Hlook.
  - apply not_elem_of_nil.
  - destruct (String.eqb_spec u url); [done |].
    apply not_elem_of_cons. split; [congruence | auto].
Qed.

(** Removing a url: its first entry goes, the others stay in order. *)
Lemma cache_remove_sublist (url : string) (entries : list (string * string)) :
  sublist ((cache_remove url entries).*1) (entries.*1).
Proof.
  induction entries as [|[u c] entries IH]; cbn; [done |].
  destruct (String.eqb u url); cbn.
  - by apply sublist_cons.
  - by apply sublist_skip.
Qed.

Lemma cache_remove_gone (url : string) (entries : list (string * string)) :
  NoDup (entries.*1) -> url ∉ ((cache_remove url entries).*1).
Proof.
  induction entries as [|[u c] entries IH]; cbn; intros Hdup.
  - apply not_elem_of_nil.
  - apply NoDup_cons in Hdup as [Hu Hdup].
    destruct (String.eqb_spec u url) as [->|Hne]; cbn; [done |].
    apply not_elem_of_cons. split; [congruence | auto].
Qed.

Lemma cache_remove_length (url content : string)
    (entries : list (string * string)) :
  cache_lookup url entries = Some content ->
  S (length (cache_remove url entries)) = length entries.
Proof.
  induction entries as [|[u c] entries IH]; cbn; intros Hlook; [done |].
  destruct (String.eqb u url); cbn; [done | by rewrite IH].
Qed.

(** Removing another url leaves a cached url cached, behind no more than
    before. *)
Lemma cache_remove_behind (url content u : string)
    (front back : list (string * string)) :
  u ≠ url ->
  ∃ front' back',
    cache_remove u (front ++ (url, content) :: back)
    = front' ++ (url, content) :: back'
    ∧ sublist (front'.*1) (front.*1)
    ∧ (NoDup (front.*1) -> u ∉ (front'.*1)).
Proof.
  intros Hne. induction front as [|[v c] front IH]; cbn.
  - destruct (String.eqb_spec url u); [congruence |].
    exists [], (cache_remove u back).
    split_and!; [done | done | intros _; apply not_elem_of_nil].
  - destruct (String.eqb_spec v u) as [->|Hvu].
    + exists front, back. split_and!; [done | by apply sublist_cons |].
      intros Hdup. by apply NoDup_cons in Hdup as [Hu _].
    + destruct IH as (front' & back' & -> & Hsub & Hgone).
      exists ((v, c) :: front'), back'.
      split_and!; [done | by apply sublist_skip |].
      intros Hdup. apply NoDup_cons in Hdup as [_ Hdup]. cbn.
      apply not_elem_of_cons. split; [congruence | auto].
Qed.

(** Entries for different urls, all among [others], are no more than the
    different urls of [others]. *)
Lemma distinct_keys_length (front : list (string * string))
    (others : list string) :
  NoDup (front.*1) -> (front.*1) ⊆ others ->
  (length front <= length (remove_dups others))%nat.
Proof.
  intros Hdup Hsub. rewrite <- (length_fmap fst front).
  apply submseteq_length, NoDup_submseteq; [done |].
  intros x Hx. apply elem_of_remove_dups. by apply Hsub.
Qed.

(** One download keeps a cached url cached, as long as the urls asked for
    are fewer than the cache holds. *)
Lemma download_keeps_cached (network : nat -> string -> outcome string)
    (url content u : string) (others : list string) (cache : download_cache) :
  (length (remove_dups others) < maxsize)%nat ->
  u ∈ others ->
  cached_behind url content others (entries cache) ->
  cached_behind url content others (entries (_download network u cache).1).
Proof.
  intros Hfew Hu (front & back & Hentries & Hnot & Hdup & Hsub).
  unfold _download.
  destruct (cache_lookup u (entries cache)) as [c|] eqn:Hlook.
  - cbn. destruct (decide (u = url)) as [->|Hne].
    { rewrite Hentries, cache_lookup_front in Hlook by done.
      injection Hlook as <-. exists [], (cache_remove url (entries cache)).
      split_and!; [done | apply not_elem_of_nil | constructor |].
      intros x Hx. by apply elem_of_nil in Hx. }
    rewrite Hentries.
    destruct (cache_remove_behind url content u front back Hne)
      as (front' & back' & -> & Hsublist & Hgone).
    exists ((u, c) :: front'), back'. cbn. split_and!.
    + done.
    + apply not_elem_of_cons. split; [congruence |].
      intros Hin. apply Hnot. by eapply sublist_subseteq.
    + apply NoDup_cons. split; [auto |]. by eapply sublist_NoDup.
    + intros x Hx. apply elem_of_cons in Hx as [->|Hx]; [done |].
      apply Hsub. by eapply sublist_subseteq.
  - assert (Hfresh : u ∉ (front.*1)).
    { apply cache_lookup_None in Hlook. rewrite Hentries, fmap_app in Hlook.
      intros Hin. apply Hlook, elem_of_app. by left. }
    assert (Hne : u ≠ url).
    { intros ->. by rewrite Hentries, cache_lookup_front in Hlook. }
    destruct (network (fetches cache) u) as [c|e|]; cbn;
      [| by exists front, back..].
    assert (Hfront : NoDup (((u, c) :: front).*1)
                     ∧ (((u, c) :: front).*1) ⊆ others).
    { cbn. split; [by apply NoDup_cons |].
      intros x Hx. apply elem_of_cons in Hx as [->|Hx]; [done | by apply Hsub]. }
    destruct Hfront as [Hdup' Hsub'].
    pose proof (distinct_keys_length _ _ Hdup' Hsub') as Hlen.
    cbn [length] in Hlen.
    exists ((u, c) :: front), (take (maxsize - S (S (length front))) back).
    split_and!; [| | done | done].
    + rewrite Hentries. unfold maxsize in *. cbn [app]. f_equal.
      rewrite take_app_ge by lia.
      replace (127 - length front)%nat
        with (S (128 - S (S (length front)))) by lia.
      done.
    + cbn. apply not_elem_of_cons. split; [congruence | done].
Qed.

(** X17.  An icon that was downloaded stays in the cache while fewer than
    128 different urls are asked for after it, whatever those downloads
    come to: the next download of it returns the same content and does not
    reach the network. *)
Theorem downloaded_icon_stays_cached
    (network : nat -> string -> outcome string) (url content : string)
    (others : list string) (cache : download_cache) :
  (_download network url cache).2 = Ok content ->
  (length (remove_dups others) < maxsize)%nat ->
  let cache' := download_all network others (_download network url cache).1 in
  (_download network url cache').2 = Ok content
  ∧ fetches (_download network url cache').1 = fetches cache'.
Proof.
  intros Hfirst Hfew cache'.
  assert (Hstart : cached_behind url content others
                     (entries (_download network url cache).1)).
  { unfold _download in *.
    destruct (cache_lookup url (entries cache)) as [c|] eqn:Hlook.
    - cbn in *. injection Hfirst as ->.
      exists [], (cache_remove url (entries cache)).
      split_and!; [done | apply not_elem_of_nil | constructor |].
      intros x Hx. by apply elem_of_nil in Hx.
    - destruct (network (fetches cache) url) as [c|e|]; cbn in *; try done.
      injection Hfirst as ->. exists [], (take (maxsize - 1) (entries cache)).
      split_and!; [done | apply not_elem_of_nil | constructor |].
      intros x Hx. by apply elem_of_nil in Hx. }
  assert (Hend : cached_behind url content others (entries cache')).
  { subst cache'. generalize dependent (_download network url cache).1.
    clear Hfirst.
    assert (Hall : ∀ todo start,
              todo ⊆ others ->
              cached_behind url content others (entries start) ->
              cached_behind url content others
                (entries (download_all network todo start))).
    { induction todo as [|u todo IH]; intros start Htodo Hstart; [done |].
      cbn [download_all].
      assert (Hu : u ∈ others) by (apply Htodo; by left).
      pose proof (download_keeps_cached network url content u others start
                    Hfew Hu Hstart) as Hstep.
      destruct (_download network u start) as [start' [c|e|]]; cbn in Hstep.
      - apply IH; [| done]. intros x Hx. apply Htodo. by right.
      - apply IH; [| done]. intros x Hx. apply Htodo. by right.
      - done. }
    intros start Hstart. by apply Hall. }
  destruct Hend as (front & back & Hentries & Hnot & _).
  unfold _download. rewrite Hentries, cache_lookup_front by done. done.
Qed.

Lemma download_keeps_cache_ok (network : nat -> string -> outcome string)
    (url : string) (cache : download_cache) :
  cache_ok cache -> cache_ok (_download network url cache).1.
Proof.
  intros [Hdup Hlen]. unfold _download, cache_ok.
  destruct (cache_lookup url (entries cache)) as [content|] eqn:Hlook.
  - cbn. split.
    + apply NoDup_cons. split; [by apply cache_remove_gone |].
      eapply sublist_NoDup; [done | apply cache_remove_sublist].
    + by rewrite (cache_remove_length _ _ _ Hlook).
  - destruct (network (fetches cache) url) as [content|e|];
      cbn [fst entries]; [| done..].
    split.
    + eapply sublist_NoDup; [| apply fmap_sublist, sublist_take].
      cbn. apply NoDup_cons. split; [by apply cache_lookup_None | done].
    + rewrite length_take. lia.
Qed.

(** X18.  The download cache never holds two entries for one url nor more
    than 128 entries, whatever is downloaded and whatever the downloads
    come to. *)
Theorem download_cache_stays_bounded
    (network : nat -> string -> outcome string) (urls : list string)
    (cache : download_cache) :
  cache_ok cache -> cache_ok (download_all network urls cache).
Proof.
  revert cache. induction urls as [|url urls IH]; intros cache Hok; [done |].
  cbn [download_all].
  pose proof (download_keeps_cache_ok network url cache Hok) as Hstep.
  destruct (_download network url cache) as [cache' [content|e|]];
    cbn in Hstep; [by apply IH.. | done].
Qed.

(** X19.  A download that raised left nothing in the cache: the cache
    holds what it held, and the next download of the same url reaches the
    network again and comes to what the network then answers. *)
Theorem failed_download_is_tried_again
    (network : nat -> string -> outcome string) (url : string)
    (cache : download_cache) (e : exn) :
  (_download network url cache).2 = Raise e ->
  let cache' := (_download network url cache).1 in
  entries cache' = entries cache
  ∧ fetches cache' = S (fetches cache)
  ∧ (_download network url cache').2 = network (fetches cache') url
  ∧ fetches (_download network url cache').1 = S (fetches cache').
Proof.
  unfold _download.
  destruct (cache_lookup url (entries cache)) as [content|] eqn:Hlook;
    [done |].
  destruct (network (fetches cache) url) as [content|e'|]; cbn; try done.
  intros _. rewrite Hlook.
  split_and!; [done | done | |];
    by destruct (network (S (fetches cache)) url).
Qed.

(** * Colours and icons *)

Lemma format_02x_length (n : Z) :
  0 <= n < 256 -> String.length (format_02x n) = 2%nat.
Proof.
  intros Hn.
  assert (Hall : forallb (fun k => Nat.eqb (String.length
                                      (format_02x (Z.of_nat k))) 2)
                   (seq 0 256) = true) by (vm_compute; reflexivity).
  rewrite forallb_forall in Hall.
  specialize (Hall (Z.to_nat n)). rewrite Z2Nat.id in Hall by lia.
  apply Nat.eqb_eq, Hall, in_seq. lia.
Qed.

Lemma prefix_hash (rest : string) : String.prefix "#" ("#" +:+ rest) = true.
Proof.
  change ("#" +:+ rest) with (String "#" rest).
  cbn [String.prefix]. destruct (ascii_dec "#" "#"); [| done].
  by destruct rest.
Qed.

(** X21.  [_named_to_hex] raises only what [ImageColor.getrgb] raises: its
    own [ValueError] is never reached, the string it builds always
    starting with ["#"].  From three or four channels it returns ["#"]
    followed by the first three in hexadecimal, seven characters when the
    channels are between 0 and 255. *)
Theorem _named_to_hex_raises_only_what_getrgb_raises
    (getrgb : string -> outcome (list Z)) (color : string) :
  match getrgb color with
  | Ok (r :: g :: b :: _) =>
      _named_to_hex getrgb color
      = Ok ("#" +:+ format_02x r +:+ format_02x g +:+ format_02x b)
      ∧ (0 <= r < 256 -> 0 <= g < 256 -> 0 <= b < 256 ->
         String.length ("#" +:+ format_02x r +:+ format_02x g +:+ format_02x b)
         = 7%nat)
  | Ok _ => _named_to_hex getrgb color = Raise IndexError
  | Raise e => _named_to_hex getrgb color = Raise e
  | Pending => _named_to_hex getrgb color = Pending
  end.
Proof.
  unfold _named_to_hex.
  destruct (getrgb color) as [[|r [|g [|b rest]]]|e|]; try done.
  cbn [mbind outcome_bind]. rewrite prefix_hash.
  split; [done |]. intros Hr Hg Hb.
  change ("#" +:+ format_02x r +:+ format_02x g +:+ format_02x b)
    with (String "#" (format_02x r +:+ format_02x g +:+ format_02x b)).
  cbn [String.length]. rewrite !length_append, !format_02x_length by done.
  done.
Qed.

(** X20.  Where the icon of a key comes from.  A configured asset file
    wins over a Material Design icon, and then nothing is downloaded and
    no colour is converted.  Without a file, the icon is the configured
    Material Design icon, or else, when the button's entry is in the store,
    the default of the domain of its service; it is downloaded from its
    url, tinted with the hex of the text colour that goes to the renderer,
    which is ["green"] whenever the key is pressed and follows the state
    otherwise, and saved under the icon's name alone, so that a draw in
    another colour overwrites it; if the colour cannot be converted, that
    exception is the outcome.  With no icon at all the key is black. *)
Theorem icon_file_wins_over_mdi
    (getrgb : string -> outcome (list Z))
    (_render_jinja : string -> list (string * json) -> outcome string)
    (button : Button) (st : gmap hashable json) (key_pressed : bool)
    (args : render_args) :
  update_key_image_args _render_jinja button st key_pressed = Ok args ->
  render_key_image_icon getrgb args =
    match icon button with
    | Some name => Ok (AssetFile name)
    | None =>
        match match icon_mdi button with
              | Some mdi => Some mdi
              | None =>
                  match st !! entity_key button with
                  | Some _ => domain button ≫= (DEFAULT_MDI_ICONS !!.)
                  | None => None
                  end
              end
        with
        | Some mdi =>
            color ← _named_to_hex getrgb (arg_text_color args);
            Ok (MdiIcon (_mdi_url mdi) color (mdi +:+ ".png"))
        | None => Ok BlackSquare
        end
    end
  ∧ (key_pressed = true -> arg_text_color args = "green").
Proof.
  unfold update_key_image_args, render_key_image_icon. intros Hargs.
  destruct (st !! entity_key button) as [record|]; cbn in Hargs.
  - destruct (_render_jinja (text button) [("state", record)]) as [label| |];
      cbn in Hargs; try done.
    destruct (text_color button) as [template|].
    + destruct (_render_jinja template [("state", record)]) as [color| |];
        cbn in Hargs; try done.
      injection Hargs as <-. cbn. split; [| by intros ->].
      by destruct (icon button), (icon_mdi button),
        (domain button ≫= (DEFAULT_MDI_ICONS !!.)).
    + destruct (getitem record "state") as [value| |]; cbn in Hargs; try done.
      injection Hargs as <-. cbn. split; [| by intros ->].
      by destruct (icon button), (icon_mdi button),
        (domain button ≫= (DEFAULT_MDI_ICONS !!.)).
  - injection Hargs as <-. cbn. split; [| by intros ->].
    by destruct (icon button), (icon_mdi button).
Qed.

(** * Runs of the properties above *)

(** Startup on a four-key deck, then a press of the kitchen light's key, an
    event, and a press of the scene key: the five frames sent carry the
    ids 1 to 5. *)
Lemma sent_ids_stay_distinct_run :
  let w := with_inbox (@initial_world render_args)
             [Frame Sample.auth_ok;
              Frame (Sample.snapshot 1 [Sample.record "light.kitchen" "off"]);
              Frame (Sample.event "light.kitchen" "on")] in
  let w' := perform_all render_args literal_jinja args_as_image Sample.buttons
              [KeyEvent 0 true; NextFrame; KeyEvent 2 true]
              (startup render_args literal_jinja args_as_image 4
                 Sample.buttons w).1 in
  ids_fresh render_args w' ∧ sent_ids render_args w' = [1; 2; 3; 4; 5].
Proof.
  intros w w'. split; [| vm_compute; reflexivity].
  apply (sent_ids_stay_distinct render_args literal_jinja args_as_image 4
           Sample.buttons [KeyEvent 0 true; NextFrame; KeyEvent 2 true] w).
  split; constructor.
Defined.

(** An event for the kitchen light leaves the fan's entry as it was. *)
Lemma update_state_touches_only_the_named_entity_run :
  let w := with_state (@initial_world render_args)
             {[ HStr "switch.fan" := Sample.record "switch.fan" "on" ]} in
  state (_update_state literal_jinja args_as_image
           (Sample.event "light.kitchen" "on") Sample.buttons w).1
    !! HStr "switch.fan"
  = Some (Sample.record "switch.fan" "on").
Proof.
  intros w.
  destruct (update_state_touches_only_the_named_entity render_args
              literal_jinja args_as_image (Sample.event "light.kitchen" "on")
              Sample.buttons w) as [_ Hother].
  - intros event event_data v Hevent Hdata Hv.
    injection Hevent as <-. injection Hdata as <-. injection Hv as <-.
    by eexists.
  - rewrite Hother; [reflexivity |].
    intros new_state (event & event_data & _ & Hevent & _ & Hdata & Hid & _).
    injection Hevent as <-. injection Hdata as <-. discriminate Hid.
Defined.

(** The hub answers get_states with an error reply, which has no
    ["result"]: [get_states] ends in [KeyError]. *)
Lemma get_states_unreadable_reply_run :
  let reply := JObj [("id", JNum 1); ("type", JStr "result");
                     ("success", JBool false)] in
  let w := with_inbox (@initial_world render_args)
             [Frame Sample.auth_ok; Frame reply;
              Frame (Sample.event "light.kitchen" "on")] in
  get_states w =
    ({| _ID_COUNTER := 1; state := ∅;
        ws_inbox := [Frame (Sample.event "light.kitchen" "on")];
        ws_sent := [JObj [("type", JStr "get_states"); ("id", JNum 1)]];
        deck_images := [] |}, Raise (KeyError "result")).
Proof.
  intros reply w.
  apply (get_states_unreadable_reply render_args [Sample.auth_ok] reply
           [Frame (Sample.event "light.kitchen" "on")] (KeyError "result") w).
  - repeat constructor. by exists (JStr "auth_ok").
  - reflexivity.
  - reflexivity.
  - reflexivity.
Defined.

(** Two events arrive and no reply: both are dropped, the store stays
    empty. *)
Lemma get_states_drops_frames_while_waiting_run :
  let w := with_inbox (@initial_world render_args)
             [Frame (Sample.event "light.kitchen" "on");
              Frame (Sample.event "switch.fan" "on")] in
  get_states w =
    ({| _ID_COUNTER := 1; state := ∅; ws_inbox := [];
        ws_sent := [JObj [("type", JStr "get_states"); ("id", JNum 1)]];
        deck_images := [] |}, Pending).
Proof.
  intros w.
  apply (get_states_drops_frames_while_waiting render_args
           [Sample.event "light.kitchen" "on"; Sample.event "switch.fan" "on"]
           w).
  - repeat constructor; by exists (JStr "event").
  - reflexivity.
Defined.

(** Two records of the kitchen light around one whose ["entity_id"] is the
    number 5: the later record of the light is filed, and so is the
    numbered one, under the number. *)
Lemma state_dict_files_records_by_entity_run :
  let numbered := JObj [("entity_id", JNum 5); ("state", JStr "on")] in
  ∃ dict,
    state_dict (JArr [Sample.record "light.kitchen" "off"; numbered;
                      Sample.record "light.kitchen" "on"]) = Ok dict
    ∧ dict !! HStr "light.kitchen" = Some (Sample.record "light.kitchen" "on")
    ∧ dict !! HNum 5 1 = Some numbered.
Proof.
  intros numbered. eexists. split; [reflexivity |].
  destruct (state_dict_files_records_by_entity
              [Sample.record "light.kitchen" "off"; numbered;
               Sample.record "light.kitchen" "on"] _ eq_refl)
    as (_ & _ & Hlast).
  split.
  - apply (Hlast [Sample.record "light.kitchen" "off"; numbered]
             (Sample.record "light.kitchen" "on") []
             (HStr "light.kitchen")); [reflexivity | reflexivity | constructor].
  - apply (Hlast [Sample.record "light.kitchen" "off"] numbered
             [Sample.record "light.kitchen" "on"] (HNum 5 1));
      [reflexivity | reflexivity |].
    repeat constructor. discriminate.
Defined.

(** Startup on the four-key sample deck, followed by an event for the
    kitchen light and one for the fan: the store ends with the events'
    records. *)
Lemma main_body_snapshot_then_events_run :
  let w := with_inbox (@initial_world render_args)
             [Frame Sample.auth_ok;
              Frame (Sample.snapshot 1 [Sample.record "light.kitchen" "off";
                                        Sample.record "switch.fan" "on"]);
              Frame (Sample.event "light.kitchen" "on");
              Frame (Sample.event "switch.fan" "off")] in
  let run := main_body render_args literal_jinja args_as_image 4
               Sample.buttons w in
  run.2 = Pending
  ∧ state run.1 !! HStr "light.kitchen"
    = Some (Sample.record "light.kitchen" "on")
  ∧ state run.1 !! HStr "switch.fan" = Some (Sample.record "switch.fan" "off")
  ∧ _ID_COUNTER run.1 = 3.
Proof.
  intros w run.
  destruct (main_body_snapshot_then_events render_args literal_jinja
              args_as_image 4 Sample.buttons [Sample.auth_ok]
              (Sample.snapshot 1 [Sample.record "light.kitchen" "off";
                                  Sample.record "switch.fan" "on"])
              [Sample.record "light.kitchen" "off";
               Sample.record "switch.fan" "on"]
              ["light.kitchen"; "switch.fan"]
              [Sample.event "light.kitchen" "on";
               Sample.event "switch.fan" "off"]
              [("light.kitchen", Sample.record "light.kitchen" "on");
               ("switch.fan", Sample.record "switch.fan" "off")] w)
    as (Hpending & Hstate & _ & Hcounter & _).
  - repeat constructor. by exists (JStr "auth_ok").
  - reflexivity.
  - reflexivity.
  - repeat constructor.
  - repeat constructor; apply sample_event_state_changed.
  - reflexivity.
  - intros key Hkey.
    do 4 (destruct key as [|key];
          [eexists _, _, _; split_and!; reflexivity |]).
    cbn in Hkey. lia.
  - intros [|[|n]] eid new_state Hn key Hkey; [| | done];
      injection Hn as <- <-; vm_compute in Hkey;
      repeat (apply elem_of_cons in Hkey as [->|Hkey];
              [eexists _, _, _; split_and!; reflexivity |]);
      by apply elem_of_nil in Hkey.
  - fold run in Hstate. rewrite Hstate.
    split_and!; [exact Hpending | reflexivity | reflexivity | exact Hcounter].
Defined.

(** A two-key deck configured with one button: the one key is drawn, then
    startup ends in [IndexError] with no subscription sent. *)
Lemma main_body_too_few_buttons_run :
  let w := with_inbox (@initial_world render_args)
             [Frame Sample.auth_ok;
              Frame (Sample.snapshot 1 [Sample.record "switch.fan" "on"]);
              Frame (Sample.event "switch.fan" "off")] in
  let run := main_body render_args literal_jinja args_as_image 2
               [Sample.scene] w in
  run.2 = Raise IndexError
  ∧ ws_sent run.1 =
      [JObj [("type", JStr "get_states"); ("id", JNum 1)];
       JObj [("id", JNum 2); ("type", JStr "unsubscribe_events");
             ("subscription", JNum 1)]]
  ∧ ws_inbox run.1 = [Frame (Sample.event "switch.fan" "off")].
Proof.
  intros w run.
  destruct (main_body_too_few_buttons render_args literal_jinja
              args_as_image 2 [Sample.scene] [Sample.auth_ok]
              (Sample.snapshot 1 [Sample.record "switch.fan" "on"])
              [Sample.record "switch.fan" "on"] ["switch.fan"]
              [Frame (Sample.event "switch.fan" "off")] w)
    as (first & Hrun & _).
  - repeat constructor. by exists (JStr "auth_ok").
  - reflexivity.
  - reflexivity.
  - repeat constructor.
  - reflexivity.
  - cbn. lia.
  - intros [|key] Hkey; [| cbn in Hkey; lia].
    eexists Sample.scene, _, _. split_and!; reflexivity.
  - subst run. rewrite Hrun. split_and!; reflexivity.
Defined.

(** The kitchen light is removed while key 0 shows it: the receive loop
    ends in [TypeError] and the event behind is left unread. *)
Lemma removed_entity_ends_receive_loop_run :
  let removed :=
    JObj [("id", JNum 3); ("type", JStr "event");
          ("event", JObj [("event_type", JStr "state_changed");
                          ("data", JObj [("entity_id", JStr "light.kitchen");
                                         ("new_state", JNull)])])] in
  let w := with_inbox (@initial_world render_args)
             [Frame removed; Frame (Sample.event "switch.fan" "on")] in
  handle_state_changes literal_jinja args_as_image Sample.buttons w =
    ({| _ID_COUNTER := 0; state := {[ HStr "light.kitchen" := JNull ]};
        ws_inbox := [Frame (Sample.event "switch.fan" "on")];
        ws_sent := []; deck_images := [] |}, Raise TypeError).
Proof.
  intros removed w.
  destruct (removed_entity_ends_receive_loop render_args literal_jinja
              args_as_image removed "light.kitchen" Sample.buttons 0
              Sample.lamp "Kitchen" [Frame (Sample.event "switch.fan" "on")] w)
    as [_ Hloop].
  - eexists _, _. split_and!; reflexivity.
  - reflexivity.
  - reflexivity.
  - reflexivity.
  - reflexivity.
  - reflexivity.
  - rewrite Hloop. reflexivity.
Defined.

(** A key event that sent something was a press of a button whose service
    has one dot. *)
Lemma key_event_sends_only_on_a_good_press_run :
  ∃ button service_,
    Sample.buttons !! 0%nat = Some button
    ∧ service button = Some service_
    ∧ count_dots service_ = 1%nat.
Proof.
  destruct (key_event_sends_only_on_a_good_press render_args literal_jinja
              args_as_image Sample.buttons 0 true initial_world)
    as (_ & button & service_ & frame & Hbutton & Hservice & Hdots & _).
  - vm_compute. discriminate.
  - by exists button, service_.
Defined.

(** The kitchen light's entry holds null: a press of its key raises before
    anything is drawn or sent. *)
Lemma undrawable_button_sends_nothing_run :
  let w := with_state (@initial_world render_args)
             {[ HStr "light.kitchen" := JNull ]} in
  key_change_callback literal_jinja args_as_image Sample.buttons 0 true w
  = (w, Raise TypeError).
Proof.
  intros w.
  apply (undrawable_button_sends_nothing render_args literal_jinja
           args_as_image Sample.buttons 0 Sample.lamp TypeError w).
  - reflexivity.
  - left. reflexivity.
Defined.

(** The kitchen light's service splits into its domain and its name. *)
Lemma split_service_identifier_run :
  "light.toggle" = "light" +:+ "." +:+ "toggle"
  ∧ domain Sample.lamp = Some "light"
  ∧ join_dot (split_dot "light.toggle") = "light.toggle".
Proof.
  destruct (split_service_identifier Sample.lamp "light.toggle" eq_refl)
    as (Hjoin & _ & _ & _ & Hparts).
  destruct (Hparts "light" "toggle" eq_refl) as [Hservice Hdomain].
  by split_and!.
Defined.

(** Three resets in a row, one at each place of the handshake, then a
    connection that goes through: three sleeps, four connects. *)
Lemma setup_ws_retries_every_reset_run :
  ∃ events,
    setup_ws [Refused ConnectionResetError;
              Established (Raise ConnectionResetError) [];
              Established (Ok tt) [Reset];
              Established (Ok tt) [Frame Sample.auth_ok]] []
    = (events, GenYield [] [])
    ∧ sleeps events = [5; 5; 5]
    ∧ connects events = 4%nat.
Proof.
  destruct (setup_ws_retries_every_reset
              [Refused ConnectionResetError;
               Established (Raise ConnectionResetError) [];
               Established (Ok tt) [Reset]]
              Sample.auth_ok [] [] [])
    as (events & Hrun & Hsleeps & Hconnects & _).
  - repeat constructor.
  - exists events. by split_and!.
Defined.

(** The hub resets the first connect and refuses the second: [main] ends
    with the refusal after one sleep, and does not try the third. *)
Lemma other_exception_while_connecting_ends_main_run :
  ∃ log,
    main literal_jinja args_as_image
      [Refused ConnectionResetError; Refused (OtherError "OSError");
       Established (Ok tt) [Frame Sample.auth_ok]]
      4 Sample.buttons initial_world
    = (log, initial_world, Raise (OtherError "OSError"))
    ∧ sleeps log = [5].
Proof.
  destruct (other_exception_while_connecting_ends_main literal_jinja
              args_as_image [Refused ConnectionResetError]
              (Refused (OtherError "OSError")) (OtherError "OSError")
              [Established (Ok tt) [Frame Sample.auth_ok]]
              4 Sample.buttons initial_world)
    as (log & Hrun & Hsleeps & _).
  - repeat constructor.
  - split; [discriminate | reflexivity].
  - exists log. by split.
Defined.

(** A pedal, which has no screen, listed before two decks: the first deck
    is opened and reset, the second is not touched. *)
Lemma get_deck_takes_the_first_visual_device_run :
  let pedal := {| is_visual := false; open_ := Ok tt; reset_ := Ok tt |} in
  let deck := {| is_visual := true; open_ := Ok tt; reset_ := Ok tt |} in
  ∃ k, (get_deck [pedal; deck; deck]).1 = [OpenCall k; ResetCall k]
       ∧ [pedal; deck; deck] !! k = Some deck
       ∧ k = 1%nat.
Proof.
  intros pedal deck.
  destruct (get_deck_takes_the_first_visual_device [pedal; deck; deck]
              [OpenCall 1; ResetCall 1] (Ok deck) eq_refl)
    as [(Hcalls & _)|(k & found & Hk & _ & _ & Hcalls & _ & Hfound)];
    [discriminate Hcalls |].
  destruct (Hfound deck eq_refl) as [<- Hopen].
  exists k. split_and!; [exact Hopen | exact Hk |].
  by injection Hopen as ->.
Defined.

(** The light bulb and the fan are fetched from different urls. *)
Lemma _mdi_url_distinct_run : _mdi_url "lightbulb" ≠ _mdi_url "fan".
Proof. apply _mdi_url_distinct. discriminate. Defined.

(** The light bulb is downloaded, then the fan and the film twice over;
    the network fails from the second request on, and the light bulb is
    still served from the cache. *)
Lemma downloaded_icon_stays_cached_run :
  let network := fun (n : nat) (url : string) =>
    match n with
    | O => Ok "<svg/>"
    | _ => Raise (OtherError "Timeout")
    end in
  let empty := {| entries := []; fetches := 0 |} in
  let cache' :=
    download_all network
      [_mdi_url "fan"; _mdi_url "movie"; _mdi_url "fan"; _mdi_url "movie"]
      (_download network (_mdi_url "lightbulb") empty).1 in
  (_download network (_mdi_url "lightbulb") cache').2 = Ok "<svg/>"
  ∧ fetches (_download network (_mdi_url "lightbulb") cache').1
    = fetches cache'.
Proof.
  intros network empty.
  apply (downloaded_icon_stays_cached network (_mdi_url "lightbulb") "<svg/>"
           [_mdi_url "fan"; _mdi_url "movie"; _mdi_url "fan"; _mdi_url "movie"]
           empty).
  - reflexivity.
  - vm_compute. lia.
Defined.

(** Starting empty, the cache stays well formed over a run of downloads. *)
Lemma download_cache_stays_bounded_run :
  let network := fun (n : nat) (url : string) => Ok url in
  cache_ok (download_all network
              [_mdi_url "fan"; _mdi_url "movie"; _mdi_url "fan"]
              {| entries := []; fetches := 0 |}).
Proof.
  intros network. apply download_cache_stays_bounded.
  split; [constructor | cbn; lia].
Defined.

(** The first request times out, the second goes through: the second
    download of the same url gets the content. *)
Lemma failed_download_is_tried_again_run :
  let network := fun (n : nat) (url : string) =>
    match n with
    | O => Raise (OtherError "Timeout")
    | _ => Ok "<svg/>"
    end in
  let empty := {| entries := []; fetches := 0 |} in
  (_download network (_mdi_url "fan")
     (_download network (_mdi_url "fan") empty).1).2 = Ok "<svg/>".
Proof.
  intros network empty.
  destruct (failed_download_is_tried_again network (_mdi_url "fan") empty
              (OtherError "Timeout") eq_refl) as (_ & _ & Hagain & _).
  rewrite Hagain. reflexivity.
Defined.

(** The two channels of the highlight colour that have one hex digit are
    filled with a zero. *)
Lemma _named_to_hex_run :
  let getrgb := fun color : string =>
    if String.eqb color "orangered" then Ok [255; 69; 0]
    else Raise ValueError in
  _named_to_hex getrgb "orangered" = Ok "#ff4500"
  ∧ _named_to_hex getrgb "no such colour" = Raise ValueError.
Proof.
  intros getrgb.
  pose proof (_named_to_hex_raises_only_what_getrgb_raises getrgb "orangered")
    as Hknown.
  pose proof (_named_to_hex_raises_only_what_getrgb_raises getrgb
                "no such colour") as Hunknown.
  cbn in Hknown, Hunknown. destruct Hknown as [Hknown _]. by split.
Defined.

(** A button with both an asset file and a Material Design icon is drawn
    from the file, also where the colour has no hex; with the icon alone,
    the pressed key's icon is tinted green. *)
Lemma icon_file_wins_over_mdi_run :
  let getrgb := fun color : string =>
    if String.eqb color "green" then Ok [0; 128; 0] else Raise ValueError in
  let icon_only :=
    {| entity_id := Some "light.kitchen"; service := Some "light.toggle";
       service_data := []; text := "Kitchen"; text_color := None;
       text_size := 12; icon := None; icon_mdi := Some "lightbulb" |} in
  let both :=
    {| entity_id := Some "light.kitchen"; service := Some "light.toggle";
       service_data := []; text := "Kitchen"; text_color := None;
       text_size := 12; icon := Some "lamp.png"; icon_mdi := Some "lightbulb" |} in
  let st : gmap hashable json :=
    {[ HStr "light.kitchen" := Sample.record "light.kitchen" "on" ]} in
  (∃ args,
     update_key_image_args literal_jinja both st false = Ok args
     ∧ render_key_image_icon getrgb args = Ok (AssetFile "lamp.png"))
  ∧ (∃ args,
       update_key_image_args literal_jinja icon_only st true = Ok args
       ∧ render_key_image_icon getrgb args =
           Ok (MdiIcon (_mdi_url "lightbulb") "#008000" "lightbulb.png"))
  ∧ (∃ args,
       update_key_image_args literal_jinja icon_only st false = Ok args
       ∧ render_key_image_icon getrgb args = Raise ValueError).
Proof.
  intros getrgb icon_only both st. split_and!.
  - eexists. split; [reflexivity |].
    by destruct (icon_file_wins_over_mdi getrgb literal_jinja both st false _
                   eq_refl) as [-> _].
  - eexists. split; [reflexivity |].
    by destruct (icon_file_wins_over_mdi getrgb literal_jinja icon_only st true
                   _ eq_refl) as [-> _].
  - eexists. split; [reflexivity |].
    by destruct (icon_file_wins_over_mdi getrgb literal_jinja icon_only st
                   false _ eq_refl) as [-> _].
Defined.

(** An event that names its entity by null: the record is stored under
    None, and the scene button, which is bound to no entity, is redrawn
    against it and picks up its colour. *)
Lemma update_state_any_entity_id_run :
  let unnamed :=
    JObj [("id", JNum 3); ("type", JStr "event");
          ("event", JObj [("event_type", JStr "state_changed");
                          ("data", JObj [("entity_id", JNull);
                                         ("new_state",
                                          Sample.record "light.kitchen" "on")])])] in
  _update_state literal_jinja args_as_image unnamed Sample.buttons
    initial_world
  = ({| _ID_COUNTER := 0;
        state := {[ HNone := Sample.record "light.kitchen" "on" ]};
        ws_inbox := []; ws_sent := [];
        deck_images :=
          [(2%nat, {| label_text := "Movie"; arg_text_color := "orangered";
                      arg_icon_mdi := Some "movie"; icon_filename := None;
                      font_size := 14 |})] |}, Ok tt).
Proof.
  intros unnamed.
  destruct (update_state_any_entity_id render_args literal_jinja args_as_image
              unnamed JNull (Sample.record "light.kitchen" "on")
              Sample.buttons initial_world)
    as (drawn & Hw & _ & Hall & _).
  - eexists _, _. split_and!; reflexivity.
  - reflexivity.
Defined.
